(** * steam_download_monitor: a shallow embedding of the log tracker

    The development follows [steam_download_monitor.py]: the text helpers
    Python provides ([str.lower], [str.strip], [in], [re.search], [float],
    the [.3f] format), the [State] object, [nice_status], [pick_active],
    [_set_speed], [parse_line], the body of [reopen_tail] and the report
    part of [watch_log].

    Conventions of the model.
    - A Python [str] is a [string]; a character is one [ascii] code.  Codes
      below 128 behave as in Python; codes from 128 on (the bytes of UTF-8
      text such as the Russian status labels) are neither spaces nor digits
      and have no case.  Python also has white space and digits outside
      ASCII: the statements about what [strip] returns, what a pattern
      captures and which subject a line is about are made for texts
      without them, by the hypothesis [Text.plain] (the text is ASCII) or
      [Text.narrow] (the text has no white space outside ASCII).
    - A file is the text that can be read through it, and an offset counts
      its characters.  For an ASCII text without CR ([Tail.tidy]) that is
      what the file object of Python gives; a statement about [f.tell()]
      after [f.readline()] is made for such texts.
    - A Python [float] is a [spec_float] of the binary64 format; the
      operations are the IEEE ones of [SpecFloat].
    - A [dict] is an association list in insertion order without repeated
      keys, as [dict.items()] enumerates it.
    - [time.time()], [datetime.now()] and the manifest lookup are inputs of
      the functions that call them. *)

From Stdlib Require Import Bool Arith ZArith Lia List.
From Stdlib Require Import Ascii String DecimalString.
From Stdlib Require Import Floats.SpecFloat.
Import ListNotations.

Local Open Scope string_scope.
Local Open Scope list_scope.
Local Open Scope nat_scope.

(* ===================================================================== *)
(** ** Characters and strings *)
(* ===================================================================== *)

Module Text.

(** [c.isspace()] for a code below 128: TAB, LF, VT, FF, CR, the four
    separators FS, GS, RS, US, and the blank.  The white space outside
    ASCII is listed in [wide_spaces] below; [narrow] tells that a text
    has none. *)
Definition is_space (c : ascii) : bool :=
  let n := nat_of_ascii c in
  ((9 <=? n) && (n <=? 13)) || ((28 <=? n) && (n <=? 32)).

Definition is_digit (c : ascii) : bool :=
  let n := nat_of_ascii c in (48 <=? n) && (n <=? 57).

Definition lower_char (c : ascii) : ascii :=
  let n := nat_of_ascii c in
  if (65 <=? n) && (n <=? 90) then ascii_of_nat (n + 32) else c.

(** [s.lower()] *)
Fixpoint lower (s : string) : string :=
  match s with
  | EmptyString => EmptyString
  | String c s' => String (lower_char c) (lower s')
  end.

(** [s.lstrip()] *)
Fixpoint lstrip (s : string) : string :=
  match s with
  | EmptyString => EmptyString
  | String c s' => if is_space c then lstrip s' else s
  end.

(** [s.rstrip()]: a character is dropped when it is a space and nothing
    but spaces follows it. *)
Fixpoint rstrip (s : string) : string :=
  match s with
  | EmptyString => EmptyString
  | String c s' =>
      match rstrip s' with
      | EmptyString => if is_space c then EmptyString else String c EmptyString
      | r => String c r
      end
  end.

(** [s.strip()] *)
Definition strip (s : string) : string := rstrip (lstrip s).

(** [hay.startswith(needle)] *)
Fixpoint starts_with (needle hay : string) : bool :=
  match needle, hay with
  | EmptyString, _ => true
  | String a n', String b h' => Ascii.eqb a b && starts_with n' h'
  | String _ _, EmptyString => false
  end.

(** [needle in hay] *)
Fixpoint contains (needle hay : string) : bool :=
  starts_with needle hay ||
  match hay with
  | EmptyString => false
  | String _ h' => contains needle h'
  end.

(** [s[i:j]] for [i <= j] *)
Definition slice (i j : nat) (s : string) : string := substring i (j - i) s.


(** The text is ASCII: every code is below 128.  On such a text [lower],
    [strip] and the classes [\s] and [\d] of [re] are what Python
    computes. *)
Fixpoint plain (s : string) : bool :=
  match s with
  | EmptyString => true
  | String c s' => (nat_of_ascii c <? 128) && plain s'
  end.

Definition wide2 (a b : ascii) : string := String a (String b EmptyString).

Definition wide3 (a b c : ascii) : string :=
  String a (String b (String c EmptyString)).

(** The white space of Python outside ASCII, in UTF-8: U+0085, U+00A0,
    U+1680, U+2000 to U+200A, U+2028, U+2029, U+202F, U+205F and U+3000. *)
Definition wide_spaces : list string :=
  [wide2 "194" "133"; wide2 "194" "160"; wide3 "225" "154" "128";
   wide3 "226" "128" "128"; wide3 "226" "128" "129"; wide3 "226" "128" "130";
   wide3 "226" "128" "131"; wide3 "226" "128" "132"; wide3 "226" "128" "133";
   wide3 "226" "128" "134"; wide3 "226" "128" "135"; wide3 "226" "128" "136";
   wide3 "226" "128" "137"; wide3 "226" "128" "138"; wide3 "226" "128" "168";
   wide3 "226" "128" "169"; wide3 "226" "128" "175"; wide3 "226" "129" "159";
   wide3 "227" "128" "128"].

(** The text has no white space outside ASCII: the spaces that
    [str.strip] and [\s] see in it are the spaces of [is_space]. *)
Definition narrow (s : string) : bool :=
  forallb (fun w => negb (contains w s)) wide_spaces.

End Text.

(* ===================================================================== *)
(** ** Regular expressions: the fragment of [re] the monitor uses *)
(* ===================================================================== *)

Module Re.

(** One-character atoms. *)
Inductive cclass : Type :=
| c_lit (c : ascii)   (* a literal character *)
| c_d                 (* \d *)
| c_s                 (* \s *)
| c_dot               (* .  (no flag: anything but a newline) *)
| c_09                (* [0-9] *)
| c_09dot.            (* [0-9.] *)

Inductive quant : Type := q_one | q_star | q_plus.

(** A pattern is a sequence of tokens; the patterns of the monitor have no
    alternation and no nested group, and quantify single characters only. *)
Inductive tok : Type :=
| t_bol                           (* ^ *)
| t_open                          (* ( *)
| t_close                         (* ) *)
| t_atom (c : cclass) (q : quant).

Definition regex := list tok.

(** Membership in a class.  [\d] and [\s] are the digits and the white
    space of ASCII; on a text that is not ASCII, [re] also takes the
    digits and the white space outside ASCII ([Text.plain] tells that a
    text is ASCII). *)
Definition in_class (k : cclass) (x : ascii) : bool :=
  match k with
  | c_lit c => Ascii.eqb x c
  | c_d => Text.is_digit x
  | c_s => Text.is_space x
  | c_dot => negb (Ascii.eqb x "010"%char)
  | c_09 => Text.is_digit x
  | c_09dot => Text.is_digit x || Ascii.eqb x "."%char
  end.

(** Positions of the groups closed so far (latest first) and of the group
    that is open. *)
Record mstate : Type := { opened : list nat; spans : list (nat * nat) }.

Definition m_init : mstate := {| opened := []; spans := [] |}.

(** Greedy repetition with backtracking: take the character when it is in
    the class and try the longer match first; fall back on the rest of the
    pattern [k] at the current position. *)
Fixpoint star (c : cclass) (k : nat -> string -> option mstate)
    (i : nat) (s : string) {struct s} : option mstate :=
  match s with
  | String x s' =>
      if in_class c x then
        match star c k (S i) s' with
        | Some r => Some r
        | None => k i s
        end
      else k i s
  | EmptyString => k i s
  end.

(** [match_at r i s m]: the pattern [r] matches a prefix of [s], the text
    from position [i] on. *)
Fixpoint match_at (r : regex) {struct r}
  : nat -> string -> mstate -> option mstate :=
  match r with
  | [] => fun _ _ m => Some m
  | t :: r' =>
      let k := match_at r' in
      match t with
      | t_bol => fun i s m => if i =? 0 then k i s m else None
      | t_open => fun i s m =>
          k i s {| opened := i :: opened m; spans := spans m |}
      | t_close => fun i s m =>
          match opened m with
          | b :: o => k i s {| opened := o; spans := (b, i) :: spans m |}
          | [] => None
          end
      | t_atom c q_one => fun i s m =>
          match s with
          | String x s' => if in_class c x then k (S i) s' m else None
          | EmptyString => None
          end
      | t_atom c q_star => fun i s m => star c (fun j t => k j t m) i s
      | t_atom c q_plus => fun i s m =>
          match s with
          | String x s' =>
              if in_class c x then star c (fun j t => k j t m) (S i) s'
              else None
          | EmptyString => None
          end
      end
  end.

(** The leftmost start position at which the pattern matches. *)
Fixpoint search_from (r : regex) (i : nat) (s : string) : option mstate :=
  match match_at r i s m_init with
  | Some m => Some m
  | None =>
      match s with
      | String _ s' => search_from r (S i) s'
      | EmptyString => None
      end
  end.

(** [r.search(line)]: [None], or the texts of groups 1, 2, ... *)
Definition search (r : regex) (line : string) : option (list string) :=
  match search_from r 0 line with
  | Some m =>
      Some (map (fun be => Text.slice (fst be) (snd be) line) (rev (spans m)))
  | None => None
  end.

(** [m.group(n)] for [n >= 1]. *)
Definition group (g : list string) (n : nat) : string := nth (n - 1) g EmptyString.

(** Pattern builders. *)
Definition one (c : cclass) : tok := t_atom c q_one.
Definition many (c : cclass) : tok := t_atom c q_star.
Definition some (c : cclass) : tok := t_atom c q_plus.

Fixpoint lit (s : string) : regex :=
  match s with
  | EmptyString => []
  | String c s' => one (c_lit c) :: lit s'
  end.

(** [c{n}] *)
Definition times (n : nat) (c : cclass) : regex := repeat (one c) n.

End Re.

(* ===================================================================== *)
(** ** Python floats: [float(text)] and the [.3f] format *)
(* ===================================================================== *)

Module PyFloat.

(** binary64 *)
Definition float : Type := spec_float.

Definition prec : Z := 53.
Definition emax : Z := 1024.

Definition sub (x y : float) : float := SFsub prec emax x y.
Definition leb (x y : float) : bool := SFleb x y.
Definition ltb (x y : float) : bool := SFltb x y.

(** The float nearest to [n / d] (ties to even; infinity on overflow). *)
Definition of_ratio (n : N) (d : positive) : float :=
  match n with
  | N0 => S754_zero false
  | Npos p => SFdiv prec emax (S754_finite false p 0) (S754_finite false d 0)
  end.

(** The float of an integer literal such as [300] or [0.0]. *)
Definition of_nat (n : nat) : float := of_ratio (N.of_nat n) 1.

(** The digits of [s] appended to the number [acc]; [None] when a
    character is not a digit. *)
Fixpoint digits (s : string) (acc : N) : option N :=
  match s with
  | EmptyString => Some acc
  | String c s' =>
      if Text.is_digit c
      then digits s' (acc * 10 + N.of_nat (nat_of_ascii c - 48))%N
      else None
  end.

(** The text before the first dot and, when there is a dot, the text
    after it. *)
Fixpoint split_dot (s : string) : string * option string :=
  match s with
  | EmptyString => (EmptyString, None)
  | String c s' =>
      if Ascii.eqb c "."%char then (EmptyString, Some s')
      else let '(a, b) := split_dot s' in (String c a, b)
  end.

Fixpoint pow10 (k : nat) : positive :=
  match k with
  | O => 1%positive
  | S k' => (10 * pow10 k')%positive
  end.

(** [float(text)] for a text over [0-9.], which is what the patterns of
    the monitor capture: digits with at most one dot and at least one
    digit, correctly rounded; [None] stands for the [ValueError] that
    [float] raises on any other such text. *)
Definition of_str (text : string) : option float :=
  let '(ip, fp) := split_dot text in
  let fp := match fp with Some f => f | None => EmptyString end in
  if (String.length ip + String.length fp =? 0) then None
  else
    match digits (ip ++ fp)%string 0%N with
    | Some n => Some (of_ratio n (pow10 (String.length fp)))
    | None => None
    end.

Definition digit_char (d : Z) : ascii := ascii_of_nat (48 + Z.to_nat d).

(** The decimal numeral of a natural number. *)
Definition decimal (n : Z) : string :=
  NilZero.string_of_uint (N.to_uint (Z.to_N n)).

(** [a / b] rounded to the nearest integer, ties to even ([0 <= a], [0 < b]). *)
Definition div_half_even (a b : Z) : Z :=
  let q := (a / b)%Z in
  match (2 * (a mod b) ?= b)%Z with
  | Lt => q
  | Gt => (q + 1)%Z
  | Eq => if Z.even q then q else (q + 1)%Z
  end.

(** [m * 2^e * 1000] rounded to an integer. *)
Definition thousandths (m : positive) (e : Z) : Z :=
  match e with
  | Zneg p => div_half_even (Zpos m * 1000) (Z.pow 2 (Zpos p))
  | _ => (Zpos m * 1000 * Z.pow 2 e)%Z
  end.

(** The numeral of [t / 1000] with three decimals. *)
Definition fixed3 (t : Z) : string :=
  (decimal (t / 1000) ++ "." ++
   String (digit_char (t / 100 mod 10))
     (String (digit_char (t / 10 mod 10))
        (String (digit_char (t mod 10)) EmptyString)))%string.

(** [f"{x:.3f}"] *)
Definition format_3f (x : float) : string :=
  match x with
  | S754_nan => "nan"
  | S754_infinity s => if s then "-inf" else "inf"
  | S754_zero s => if s then "-0.000" else "0.000"
  | S754_finite s m e =>
      ((if s then "-" else EmptyString) ++ fixed3 (thousandths m e))%string
  end.

Definition is_finite (x : float) : bool :=
  match x with
  | S754_zero _ | S754_finite _ _ _ => true
  | _ => false
  end.

End PyFloat.

(* ===================================================================== *)
(** ** The patterns of the monitor *)
(* ===================================================================== *)

Module Patterns.
Import Re.

(** [^\[(\d{4}-\d{2}-\d{2} \d{2}:\d{2}:\d{2})\]], the head of the three
    metric patterns. *)
Definition stamp : regex :=
  [t_bol] ++ lit "[" ++ [t_open]
  ++ times 4 c_d ++ lit "-" ++ times 2 c_d ++ lit "-" ++ times 2 c_d
  ++ lit " "
  ++ times 2 c_d ++ lit ":" ++ times 2 c_d ++ lit ":" ++ times 2 c_d
  ++ [t_close] ++ lit "]".

(** [^\[(...)\].*Current download rate:\s*([0-9.]+)\s*Mbps] *)
Definition rate_re : regex :=
  stamp ++ [many c_dot] ++ lit "Current download rate:"
  ++ [many c_s; t_open; some c_09dot; t_close; many c_s] ++ lit "Mbps".

(** [^\[(...)\].*\(rate was\s*[0-9.]+,\s*now\s*([0-9.]+)\)] *)
Definition inc_re : regex :=
  stamp ++ [many c_dot] ++ lit "(rate was"
  ++ [many c_s; some c_09dot] ++ lit "," ++ [many c_s] ++ lit "now"
  ++ [many c_s; t_open; some c_09dot; t_close] ++ lit ")".

(** [^\[(...)\].*stats:\s*\(Invalid,\s*0\)\s*:\s*([0-9]+)\s*Bytes,\s*([0-9]+)\s*sec\s*\(([0-9.]+)\s*Mbps\)\.] *)
Definition stats_re : regex :=
  stamp ++ [many c_dot] ++ lit "stats:"
  ++ [many c_s] ++ lit "(Invalid," ++ [many c_s] ++ lit "0)"
  ++ [many c_s] ++ lit ":"
  ++ [many c_s; t_open; some c_09; t_close; many c_s] ++ lit "Bytes,"
  ++ [many c_s; t_open; some c_09; t_close; many c_s] ++ lit "sec"
  ++ [many c_s] ++ lit "("
  ++ [t_open; some c_09dot; t_close; many c_s] ++ lit "Mbps).".

(** [AppID\s+(\d+)\s+], the head of the five subject patterns. *)
Definition app_head : regex :=
  lit "AppID" ++ [some c_s; t_open; some c_d; t_close; some c_s].

(** [AppID\s+(\d+)\s+.*update changed\s*:\s*] followed by a last group
    that is [.] starred *)
Definition upd_changed_re : regex :=
  app_head ++ [many c_dot] ++ lit "update changed"
  ++ [many c_s] ++ lit ":" ++ [many c_s; t_open; many c_dot; t_close].

(** [AppID\s+(\d+)\s+update started\s*:] *)
Definition upd_started_re : regex :=
  app_head ++ lit "update started" ++ [many c_s] ++ lit ":".

(** [AppID\s+(\d+)\s+update canceled\s*:] *)
Definition upd_canceled_re : regex :=
  app_head ++ lit "update canceled" ++ [many c_s] ++ lit ":".

(** [AppID\s+(\d+)\s+finished update] *)
Definition finished_re : regex := app_head ++ lit "finished update".

(** [AppID\s+(\d+)\s+state changed\s*:\s*] followed by a last group
    that is [.] starred *)
Definition state_changed_re : regex :=
  app_head ++ lit "state changed"
  ++ [many c_s] ++ lit ":" ++ [many c_s; t_open; many c_dot; t_close].

End Patterns.

(* ===================================================================== *)
(** ** Dictionaries *)
(* ===================================================================== *)

Module Dict.

Definition dict (V : Type) : Type := list (string * V).

(** [d.get(k)] *)
Fixpoint get {V : Type} (k : string) (d : dict V) : option V :=
  match d with
  | [] => None
  | (k', v) :: d' => if String.eqb k' k then Some v else get k d'
  end.

(** [d.get(k, dflt)] *)
Definition get_default {V : Type} (k : string) (dflt : V) (d : dict V) : V :=
  match get k d with
  | Some v => v
  | None => dflt
  end.

(** [d[k] = v]: an existing key keeps its place, a new key goes last. *)
Fixpoint set {V : Type} (k : string) (v : V) (d : dict V) : dict V :=
  match d with
  | [] => [(k, v)]
  | (k', v') :: d' =>
      if String.eqb k' k then (k, v) :: d' else (k', v') :: set k v d'
  end.

Definition keys {V : Type} (d : dict V) : list string := map fst d.

End Dict.

(* ===================================================================== *)
(** ** The tracker *)
(* ===================================================================== *)

Import PyFloat.

(** The status labels of the monitor. *)
Definition PAUSED : string := "Пауза".
Definition DOWNLOADING : string := "Скачивание".
Definition STAGING : string := "Стадия (staging)".
Definition COMMITTING : string := "Установка (commit)".
Definition VERIFYING : string := "Проверка".
Definition PREPARING : string := "Подготовка".
Definition ALLOCATING : string := "Выделение места".
Definition IDLE : string := "Нет".
Definition DONE : string := "Готово".

(** [class State] *)
Record State : Type := mkState {
  active_app : option string;
  active_status : string;
  app_status : Dict.dict string;
  seen : Dict.dict float;
  speed : option float;
  speed_wall_ts : float;
  speed_log_ts : string;
  speed_src : string
}.

(** [State()] *)
Definition State_init : State :=
  {| active_app := None; active_status := EmptyString;
     app_status := []; seen := [];
     speed := None; speed_wall_ts := of_nat 0;
     speed_log_ts := EmptyString; speed_src := EmptyString |}.

(** One assignment to one attribute each. *)
Definition set_active_app (a : option string) (st : State) : State :=
  mkState a (active_status st) (app_status st) (seen st)
          (speed st) (speed_wall_ts st) (speed_log_ts st) (speed_src st).
Definition set_active_status (s : string) (st : State) : State :=
  mkState (active_app st) s (app_status st) (seen st)
          (speed st) (speed_wall_ts st) (speed_log_ts st) (speed_src st).
Definition set_app_status (appid ss : string) (st : State) : State :=
  mkState (active_app st) (active_status st)
          (Dict.set appid ss (app_status st)) (seen st)
          (speed st) (speed_wall_ts st) (speed_log_ts st) (speed_src st).
Definition set_seen (appid : string) (t : float) (st : State) : State :=
  mkState (active_app st) (active_status st)
          (app_status st) (Dict.set appid t (seen st))
          (speed st) (speed_wall_ts st) (speed_log_ts st) (speed_src st).
Definition set_speed (v : option float) (st : State) : State :=
  mkState (active_app st) (active_status st) (app_status st) (seen st)
          v (speed_wall_ts st) (speed_log_ts st) (speed_src st).
Definition set_speed_wall_ts (t : float) (st : State) : State :=
  mkState (active_app st) (active_status st) (app_status st) (seen st)
          (speed st) t (speed_log_ts st) (speed_src st).
Definition set_speed_log_ts (s : string) (st : State) : State :=
  mkState (active_app st) (active_status st) (app_status st) (seen st)
          (speed st) (speed_wall_ts st) s (speed_src st).
Definition set_speed_src (s : string) (st : State) : State :=
  mkState (active_app st) (active_status st) (app_status st) (seen st)
          (speed st) (speed_wall_ts st) (speed_log_ts st) s.

(** The truth value of a string: empty is false. *)
Definition truthy (s : string) : bool := negb (String.eqb s EmptyString).

(** [nice_status(raw)] *)
Definition nice_status (raw : string) : string :=
  let s := Text.lower raw in
  if Text.contains "suspended" s then PAUSED
  else if Text.contains "downloading" s then DOWNLOADING
  else if Text.contains "staging" s then STAGING
  else if Text.contains "committing" s then COMMITTING
  else if Text.contains "verifying" s then VERIFYING
  else if Text.contains "reconfiguring" s then PREPARING
  else if Text.contains "preallocating" s then ALLOCATING
  else IDLE.

(** One turn of the loop of [pick_active] over [st.seen.items()]. *)
Definition pick_step (st : State) (best : option (float * string))
    (item : string * float) : option (float * string) :=
  let '(appid, ts) := item in
  let ss := Dict.get_default appid EmptyString (app_status st) in
  if truthy ss && negb (String.eqb ss IDLE || String.eqb ss DONE) then
    match best with
    | None => Some (ts, appid)
    | Some (bts, _) => if ltb bts ts then Some (ts, appid) else best
    end
  else best.

(** [pick_active(st)] *)
Definition pick_active (st : State) : option string :=
  match active_app st with
  | Some a =>
      if truthy a then Some a
      else option_map snd (fold_left (pick_step st) (seen st) None)
  | None => option_map snd (fold_left (pick_step st) (seen st) None)
  end.

(** [_set_speed(st, mbps, log_ts, src)], called at the time [now]. *)
Definition _set_speed (now : float) (st : State) (mbps : float)
    (log_ts src : string) : State :=
  set_speed_src src
    (set_speed_log_ts log_ts
       (set_speed_wall_ts now
          (set_speed (Some mbps) st))).

(** The keywords of line 157. *)
Definition active_keywords : list string :=
  ["downloading"; "staging"; "committing"; "verifying"; "preallocating";
   "reconfiguring"].

(** [any(k in raw.lower() for k in [...])] *)
Definition any_active_keyword (raw : string) : bool :=
  existsb (fun k => Text.contains k (Text.lower raw)) active_keywords.

(** [st.active_app == appid] *)
Definition active_is (st : State) (appid : string) : bool :=
  match active_app st with
  | Some a => String.eqb a appid
  | None => false
  end.

Import Patterns.

(** [parse_line(line, st)], called at the time [now].  [None] stands for
    the [ValueError] of [float]; it is raised before [st] is touched. *)
Definition parse_line (now : float) (line : string) (st : State)
  : option State :=
  match Re.search upd_changed_re line with
  | Some m =>
      let appid := Re.group m 1 in
      let raw := Re.group m 2 in
      let ss := nice_status raw in
      let st := set_app_status appid ss st in
      let st := set_seen appid now st in
      let st :=
        if any_active_keyword raw
        then set_active_status ss (set_active_app (Some appid) st)
        else st in
      let st :=
        if String.eqb (Text.lower (Text.strip raw)) "none"
        then set_app_status appid IDLE st
        else st in
      Some st
  | None =>
  match Re.search upd_started_re line with
  | Some m =>
      let appid := Re.group m 1 in
      let st := set_active_app (Some appid) st in
      let st := set_active_status DOWNLOADING st in
      let st := set_app_status appid DOWNLOADING st in
      let st := set_seen appid now st in
      Some st
  | None =>
  match Re.search upd_canceled_re line with
  | Some m =>
      let appid := Re.group m 1 in
      let st := set_app_status appid PAUSED st in
      let st := set_seen appid now st in
      let st :=
        if active_is st appid then set_active_status PAUSED st else st in
      Some st
  | None =>
  match Re.search finished_re line with
  | Some m =>
      let appid := Re.group m 1 in
      let st := set_app_status appid DONE st in
      let st := set_seen appid now st in
      let st :=
        if active_is st appid
        then set_speed_wall_ts (of_nat 0)
               (set_speed None
                  (set_active_status EmptyString (set_active_app None st)))
        else st in
      Some st
  | None =>
  match Re.search state_changed_re line with
  | Some m =>
      let appid := Re.group m 1 in
      let raw := Re.group m 2 in
      if Text.contains "suspended" (Text.lower raw) then
        let st := set_app_status appid PAUSED st in
        let st := set_seen appid now st in
        let st :=
          if active_is st appid then set_active_status PAUSED st else st in
        Some st
      else Some st
  | None =>
  match Re.search rate_re line with
  | Some m =>
      match of_str (Re.group m 2) with
      | Some v => Some (_set_speed now st v (Re.group m 1) "rate")
      | None => None
      end
  | None =>
  match Re.search inc_re line with
  | Some m =>
      match of_str (Re.group m 2) with
      | Some v => Some (_set_speed now st v (Re.group m 1) "inc")
      | None => None
      end
  | None =>
  match Re.search stats_re line with
  | Some m =>
      match of_str (Re.group m 4) with
      | Some v => Some (_set_speed now st v (Re.group m 1) "stats")
      | None => None
      end
  | None => Some st
  end end end end end end end end.

(** [for ln in lines: parse_line(ln, st)] with every line processed at the
    same clock reading [now]; the loop ends at the first [ValueError]. *)
Fixpoint parse_lines (now : float) (lines : list string) (st : State)
  : option State :=
  match lines with
  | [] => Some st
  | ln :: rest =>
      match parse_line now ln st with
      | Some st' => parse_lines now rest st'
      | None => None
      end
  end.

(** [parse_lines] with a clock: line number [k] is processed at the clock
    reading [clock k]. *)
Fixpoint run (clock : nat -> float) (k : nat) (lines : list string)
    (st : State) : option State :=
  match lines with
  | [] => Some st
  | ln :: rest =>
      match parse_line (clock k) ln st with
      | Some st' => run clock (S k) rest st'
      | None => None
      end
  end.

(* ===================================================================== *)
(** ** The events behind the branches of [parse_line] *)
(* ===================================================================== *)

(** One constructor for each branch of [parse_line] that changes the
    state, with what the branch takes from the line. *)
Inductive event : Type :=
| SubjectUpdateChanged (subject raw : string)
| SubjectUpdateStarted (subject : string)
| SubjectUpdateCanceled (subject : string)
| SubjectFinished (subject : string)
| SubjectStateChanged (subject raw : string)
| MetricRate (value : float) (log_ts : string)
| MetricDelta (value : float) (log_ts : string)
| MetricStats (value : float) (log_ts : string).

Inductive classified : Type :=
| NoEvent
| Event (e : event)
| BadNumber.        (* the captured number is one [float] rejects *)

Definition metric (mk : float -> string -> event) (text log_ts : string)
  : classified :=
  match of_str text with
  | Some v => Event (mk v log_ts)
  | None => BadNumber
  end.

(** The first pattern that matches, in the order of [parse_line]. *)
Definition classify (line : string) : classified :=
  match Re.search upd_changed_re line with
  | Some m => Event (SubjectUpdateChanged (Re.group m 1) (Re.group m 2))
  | None =>
  match Re.search upd_started_re line with
  | Some m => Event (SubjectUpdateStarted (Re.group m 1))
  | None =>
  match Re.search upd_canceled_re line with
  | Some m => Event (SubjectUpdateCanceled (Re.group m 1))
  | None =>
  match Re.search finished_re line with
  | Some m => Event (SubjectFinished (Re.group m 1))
  | None =>
  match Re.search state_changed_re line with
  | Some m => Event (SubjectStateChanged (Re.group m 1) (Re.group m 2))
  | None =>
  match Re.search rate_re line with
  | Some m => metric MetricRate (Re.group m 2) (Re.group m 1)
  | None =>
  match Re.search inc_re line with
  | Some m => metric MetricDelta (Re.group m 2) (Re.group m 1)
  | None =>
  match Re.search stats_re line with
  | Some m => metric MetricStats (Re.group m 4) (Re.group m 1)
  | None => NoEvent
  end end end end end end end end.

(** What the branch of an event does to the state. *)
Definition apply_event (now : float) (e : event) (st : State) : State :=
  match e with
  | SubjectUpdateChanged appid raw =>
      let ss := nice_status raw in
      let st := set_seen appid now (set_app_status appid ss st) in
      let st :=
        if any_active_keyword raw
        then set_active_status ss (set_active_app (Some appid) st)
        else st in
      if String.eqb (Text.lower (Text.strip raw)) "none"
      then set_app_status appid IDLE st
      else st
  | SubjectUpdateStarted appid =>
      set_seen appid now
        (set_app_status appid DOWNLOADING
           (set_active_status DOWNLOADING (set_active_app (Some appid) st)))
  | SubjectUpdateCanceled appid =>
      let st := set_seen appid now (set_app_status appid PAUSED st) in
      if active_is st appid then set_active_status PAUSED st else st
  | SubjectFinished appid =>
      let st := set_seen appid now (set_app_status appid DONE st) in
      if active_is st appid
      then set_speed_wall_ts (of_nat 0)
             (set_speed None (set_active_status EmptyString (set_active_app None st)))
      else st
  | SubjectStateChanged appid raw =>
      if Text.contains "suspended" (Text.lower raw) then
        let st := set_seen appid now (set_app_status appid PAUSED st) in
        if active_is st appid then set_active_status PAUSED st else st
      else st
  | MetricRate v log_ts => _set_speed now st v log_ts "rate"
  | MetricDelta v log_ts => _set_speed now st v log_ts "inc"
  | MetricStats v log_ts => _set_speed now st v log_ts "stats"
  end.

(** The states the tracker can be in: [State()] followed by calls of
    [parse_line] that return, each at any clock reading. *)
Inductive reachable : State -> Prop :=
| reach_init : reachable State_init
| reach_step (now : float) (line : string) (st st' : State) :
    reachable st -> parse_line now line st = Some st' -> reachable st'.

(* ===================================================================== *)
(** ** The log file and its tail *)
(* ===================================================================== *)

Module Tail.

Definition LF : ascii := "010"%char.
Definition CR : ascii := "013"%char.

(** The lines of a text as a file opened in text mode delivers them: a
    line ends at LF, at CR LF or at a lone CR, its end is given as LF, and
    a last line may have no end.  Each line comes with the number of
    characters it takes in the file. *)
Fixpoint split_lines (s : string) : list (string * nat) :=
  match s with
  | EmptyString => []
  | String c s' =>
      if Ascii.eqb c LF then (String LF EmptyString, 1) :: split_lines s'
      else if Ascii.eqb c CR then
        match s' with
        | String c2 s'' =>
            if Ascii.eqb c2 LF
            then (String LF EmptyString, 2) :: split_lines s''
            else (String LF EmptyString, 1) :: split_lines s'
        | EmptyString => [(String LF EmptyString, 1)]
        end
      else
        match split_lines s' with
        | [] => [(String c EmptyString, 1)]
        | (l, n) :: r => (String c l, S n) :: r
        end
  end.

(** The text from offset [n] on. *)
Fixpoint skip (n : nat) (s : string) : string :=
  match n, s with
  | O, _ => s
  | S n', String _ s' => skip n' s'
  | S _, EmptyString => EmptyString
  end.

(** An open file.  [data] is the text that can be read through it and
    [cursor] the offset of the next read.  [reads] is no part of the Python
    object: it keeps the offsets at which the object was read, the latest
    first, for the statements about them. *)
Record File : Type := mkFile {
  data : string;
  cursor : nat;
  closed : bool;
  reads : list nat
}.

(** [open(log_path, "r", encoding="utf-8", errors="ignore")] on a file
    of text [content]; the text is taken as it is (bytes that are no
    UTF-8, which the decoder drops, are not modelled: see [Text.plain]). *)
Definition open (content : string) : File := mkFile content 0 false [].

(** [f.close()] *)
Definition close (f : File) : File :=
  mkFile (data f) (cursor f) true (reads f).

(** [f.seek(n, os.SEEK_SET)] *)
Definition seek (n : nat) (f : File) : File :=
  mkFile (data f) n (closed f) (reads f).

(** [f.tell()]: the offset of the next read.  That is what Python gives
    after a read that leaves the decoder clean, see [tidy] below. *)
Definition tell (f : File) : nat := cursor f.

(** The file after a read at its cursor that took [n] characters. *)
Definition advance (n : nat) (f : File) : File :=
  mkFile (data f) (cursor f + n) (closed f) (cursor f :: reads f).

(** [f.readline()] on an open file: the next line, empty at the end of
    the file. *)
Definition readline (f : File) : string * File :=
  match split_lines (skip (cursor f) (data f)) with
  | [] => (EmptyString, advance 0 f)
  | (l, n) :: _ => (l, advance n f)
  end.

(** [for ln in f]: the lines up to the end of the file, and the file
    after the read that found its end. *)
Fixpoint read_all (ls : list (string * nat)) (f : File)
  : list string * File :=
  match ls with
  | [] => ([], advance 0 f)
  | (l, n) :: r =>
      let '(out, f') := read_all r (advance n f) in (l :: out, f')
  end.

Definition for_lines (f : File) : list string * File :=
  read_all (split_lines (skip (cursor f) (data f))) f.

(** The variables [f] and [pos] of [watch_log]. *)
Record Tailer : Type := mkTailer {
  f : option File;
  pos : Z
}.

Definition Tailer_init : Tailer := mkTailer None 0.

(** How a piece of the loop ends. *)
Inductive outcome : Type :=
| Returned (t : Tailer) (st : State)
| OSError (t : Tailer) (st : State)   (* caught by the callers *)
| Died.                               (* an exception that nothing catches,
                                         as the ValueError of [float]:
                                         the thread ends *)

(** [reopen_tail()].  [disk] is the text of the file at [log_path], [None]
    when it cannot be opened; the text stays the same during the call.
    The lines are processed at the clock readings [clock 0], [clock 1], ... *)
Definition reopen_tail (clock : nat -> float) (disk : option string)
    (t : Tailer) (st : State) : outcome :=
  let t := mkTailer (option_map close (f t)) (pos t) in
  match disk with
  | None => OSError t st
  | Some content =>
      let f := open content in
      let size := Z.of_nat (String.length content) in
      let start := Z.max 0 (size - 200000) in
      let f := seek (Z.to_nat start) f in
      let f := if (start >? 0)%Z then snd (readline f) else f in
      let '(lns, f) := for_lines f in
      match run clock 0 (map Text.strip lns) st with
      | Some st' => Returned (mkTailer (Some f) (Z.of_nat (tell f))) st'
      | None => Died
      end
  end.

(** Lines 257-275 of [watch_log], one turn of the loop up to the report.
    [disk] is as for [reopen_tail]; an open file that is not reopened reads
    the text of the file as it is now.  [now] is the clock reading for the
    line that the turn reads at line 270.  The file stands still during
    the turn and no call on an open file fails; [turn] below is the turn
    without these two assumptions. *)
Definition tail_step (clock : nat -> float) (now : float)
    (disk : option string) (t : Tailer) (st : State) : outcome :=
  match disk with
  | None => Returned t st
  | Some content =>
      let size := Z.of_nat (String.length content) in
      let reopened :=
        if (size <? pos t)%Z then reopen_tail clock disk t st
        else Returned t st in
      match reopened with
      | Returned t st =>
          match f t with
          | None => Died
          | Some fl =>
              if closed fl then Died
              else
                let '(ln, fl) :=
                  readline (mkFile content (cursor fl) false (reads fl)) in
                if truthy ln then
                  match parse_line now (Text.strip ln) st with
                  | Some st' =>
                      Returned (mkTailer (Some fl) (Z.of_nat (tell fl))) st'
                  | None => Died
                  end
                else Returned (mkTailer (Some fl) (pos t)) st
          end
      | OSError t st => Returned t st
      | Died => Died
      end
  end.

(** A text that leaves the decoder of the file object clean after every
    line: it is ASCII and has no CR, so that its lines end at LF.  For
    such a text [f.tell()] after [f.readline()] is the offset of the next
    character.  In a text with CR the number that [f.tell()] returns can
    encode a state of the decoder (a CR that waits for its LF) and is then
    no offset: after a line that ends at a CR without LF, and in a text
    with CR LF line ends also after other lines. *)
Fixpoint tidy (s : string) : bool :=
  match s with
  | EmptyString => true
  | String c s' =>
      (nat_of_ascii c <? 128) && negb (Ascii.eqb c CR) && tidy s'
  end.

(** What one turn of the loop finds outside the program, call by call.
    - [size_258]: the result of [os.path.getsize] at line 258, [None] when
      it raises [OSError];
    - [open_234]: the text of the file that [open] of line 234 opens,
      [None] when it raises [OSError];
    - [size_235]: the result of [os.path.getsize] at line 235;
    - [fault_237]: [None] when the calls of lines 237 to 245 on the new
      file object succeed; [Some (k, fl)] when one of them raises
      [OSError] after the loop of line 242 has delivered [k] lines, the
      file object being left as [fl];
    - [text_270]: the text that the file object reads at line 270, [None]
      when the read raises [OSError]. *)
Record World : Type := mkWorld {
  size_258 : option Z;
  open_234 : option string;
  size_235 : option Z;
  fault_237 : option (nat * File);
  text_270 : option string
}.

(** The world in which the file at [log_path] has the text [disk] (or
    cannot be reached) during the whole turn and no call on an open file
    fails. *)
Definition still (disk : option string) : World :=
  match disk with
  | Some content =>
      mkWorld (Some (Z.of_nat (String.length content))) (Some content)
              (Some (Z.of_nat (String.length content))) None (Some content)
  | None => mkWorld None None None None None
  end.

(** [reopen_tail()] in the world [w]: each call that can raise [OSError]
    has its own result. *)
Definition reopen_tail_in (clock : nat -> float) (w : World)
    (t : Tailer) (st : State) : outcome :=
  let t := mkTailer (option_map close (f t)) (pos t) in
  match open_234 w with
  | None => OSError t st
  | Some content =>
      let f := open content in
      match size_235 w with
      | None => OSError (mkTailer (Some f) (pos t)) st
      | Some size =>
          let start := Z.max 0 (size - 200000) in
          let f := seek (Z.to_nat start) f in
          let f := if (start >? 0)%Z then snd (readline f) else f in
          let '(lns, f) := for_lines f in
          match fault_237 w with
          | Some (k, fl) =>
              match run clock 0 (map Text.strip (firstn k lns)) st with
              | Some st' => OSError (mkTailer (Some fl) (pos t)) st'
              | None => Died
              end
          | None =>
              match run clock 0 (map Text.strip lns) st with
              | Some st' => Returned (mkTailer (Some f) (Z.of_nat (tell f))) st'
              | None => Died
              end
          end
      end
  end.

(** Lines 270-275 of [watch_log] in the world [w].  The thread dies
    when [f] is closed (the [ValueError] of a closed file), when the read
    raises [OSError], which nothing catches here, and when [parse_line]
    raises. *)
Definition read_next (now : float) (w : World) (t : Tailer) (st : State)
  : outcome :=
  match f t with
  | None => Died
  | Some fl =>
      if closed fl then Died
      else
        match text_270 w with
        | None => Died
        | Some text =>
            let '(ln, fl) :=
              readline (mkFile text (cursor fl) false (reads fl)) in
            if truthy ln then
              match parse_line now (Text.strip ln) st with
              | Some st' =>
                  Returned (mkTailer (Some fl) (Z.of_nat (tell fl))) st'
              | None => Died
              end
            else Returned (mkTailer (Some fl) (pos t)) st
        end
  end.

(** Lines 257-275 of [watch_log] in the world [w], one turn of the loop
    up to the report.  A turn that ends at a [continue] returns the
    variables as they are then. *)
Definition turn (clock : nat -> float) (now : float) (w : World)
    (t : Tailer) (st : State) : outcome :=
  match size_258 w with
  | None => Returned t st
  | Some size =>
      let reopened :=
        if (size <? pos t)%Z then reopen_tail_in clock w t st
        else Returned t st in
      match reopened with
      | Returned t st => read_next now w t st
      | OSError t st => Returned t st
      | Died => Died
      end
  end.

End Tail.

(* ===================================================================== *)
(** ** The report *)
(* ===================================================================== *)

Definition NOTHING : string := "Ничего не загружается".

(** The four lines the report can print. *)
Inductive report : Type :=
| NothingActive
| PausedLine (name ss : string)
| UnknownSpeed (name ss : string)
| SpeedLine (name ss : string) (v : float).

(** The truth value of an optional string: [None] and the empty string
    are false. *)
Definition present (o : option string) : option string :=
  match o with
  | Some s => if truthy s then Some s else None
  | None => None
  end.

Definition stale_sec : float := of_nat 300.

(** [st.speed is not None and (time.time() - st.speed_wall_ts) <= stale_sec] *)
Definition speed_ok (now : float) (st : State) : bool :=
  match speed st with
  | Some _ => leb (sub now (speed_wall_ts st)) stale_sec
  | None => false
  end.

(** [st.app_status.get(appid, st.active_status) or "?"] *)
Definition effective_status (st : State) (appid : string) : string :=
  let ss := Dict.get_default appid (active_status st) (app_status st) in
  if truthy ss then ss else "?".

(** Lines 283-303 of [watch_log].  [manifest_name] stands for the call
    [manifest_name(libs, appid)] and [now] for the clock reading of
    line 284. *)
Definition tick (manifest_name : string -> option string) (now : float)
    (st : State) : report :=
  match present (pick_active st) with
  | None => NothingActive
  | Some appid =>
      match present (manifest_name appid) with
      | None => NothingActive
      | Some name =>
          let ss := effective_status st appid in
          if String.eqb ss PAUSED then PausedLine name ss
          else if negb (speed_ok now st) then UnknownSpeed name ss
          else
            match speed st with
            | Some v => SpeedLine name ss v
            | None => UnknownSpeed name ss   (* [speed_ok] excludes it *)
            end
      end
  end.

(** The text of the four [print] calls; [out_time] is
    [datetime.now().strftime("%Y-%m-%d %H:%M:%S")]. *)
Definition render (out_time : string) (r : report) : string :=
  match r with
  | NothingActive => "[" ++ out_time ++ "] " ++ NOTHING
  | PausedLine name ss => "[" ++ out_time ++ "] " ++ name ++ " | " ++ ss
  | UnknownSpeed name ss =>
      "[" ++ out_time ++ "] " ++ name ++ " | " ++ ss ++ " | скорость: ?"
  | SpeedLine name ss v =>
      "[" ++ out_time ++ "] " ++ name ++ " | " ++ ss ++ " | скорость: "
        ++ format_3f v ++ " Mbps | "
  end%string.

(** What one report prints. *)
Definition report_line (manifest_name : string -> option string)
    (out_time : string) (now : float) (st : State) : string :=
  render out_time (tick manifest_name now st).

(** The fields of the value of [datetime.now()]. *)
Record datetime : Type := mkDatetime {
  year : Z;
  month : Z;
  day : Z;
  hour : Z;
  minute : Z;
  second : Z
}.

(** The ranges of the fields of a datetime; the year has four digits, as
    the year of the clock of a running system has. *)
Definition valid_datetime (d : datetime) : Prop :=
  (1000 <= year d <= 9999 /\ 1 <= month d <= 12 /\ 1 <= day d <= 31
   /\ 0 <= hour d <= 23 /\ 0 <= minute d <= 59 /\ 0 <= second d <= 59)%Z.

(** [%m], [%d], [%H], [%M] and [%S]: a number below 100 in two digits. *)
Definition two_digits (n : Z) : string :=
  String (digit_char (n / 10))
    (String (digit_char (n mod 10)) EmptyString).

(** [%Y]: a year below 10000 in four digits. *)
Definition four_digits (n : Z) : string :=
  String (digit_char (n / 1000))
    (String (digit_char (n / 100 mod 10))
       (String (digit_char (n / 10 mod 10))
          (String (digit_char (n mod 10)) EmptyString))).

(** [d.strftime("%Y-%m-%d %H:%M:%S")] *)
Definition strftime (d : datetime) : string :=
  (four_digits (year d) ++ "-" ++ two_digits (month d) ++ "-"
   ++ two_digits (day d) ++ " " ++ two_digits (hour d) ++ ":"
   ++ two_digits (minute d) ++ ":" ++ two_digits (second d))%string.

(* ===================================================================== *)
(** ** Vocabulary of the statements *)
(* ===================================================================== *)

(** The test of line 135: a status that is set and is neither idle nor
    done. *)
Definition in_progress (ss : string) : bool :=
  truthy ss && negb (String.eqb ss IDLE || String.eqb ss DONE).

(** The status of a subject, empty when it has none (line 134). *)
Definition status_of (st : State) (appid : string) : string :=
  Dict.get_default appid EmptyString (app_status st).

(** The two dictionaries hold the same subjects in the same order. *)
Definition same_subjects (st : State) : Prop :=
  Dict.keys (app_status st) = Dict.keys (seen st).



(** The value, the log timestamp and the source tag of a metric event. *)
Definition metric_of (e : event) : option (float * string * string) :=
  match e with
  | MetricRate v ts => Some (v, ts, "rate")
  | MetricDelta v ts => Some (v, ts, "inc")
  | MetricStats v ts => Some (v, ts, "stats")
  | _ => None
  end.

Definition is_metric (e : event) : bool :=
  match metric_of e with Some _ => true | None => false end.

Definition is_finished (e : event) : bool :=
  match e with SubjectFinished _ => true | _ => false end.

(** The line is one of the three metric lines and its number is one
    [float] accepts. *)
Definition metric_line (ln : string) : bool :=
  match classify ln with
  | Event e => is_metric e
  | _ => false
  end.


(** The four attributes that hold the metric sample. *)
Definition sample (st : State) : option float * float * string * string :=
  (speed st, speed_wall_ts st, speed_log_ts st, speed_src st).



(** The status a report shows, if it shows one. *)
Definition report_status (r : report) : option string :=
  match r with
  | NothingActive => None
  | PausedLine _ ss | UnknownSpeed _ ss | SpeedLine _ ss _ => Some ss
  end.

(** The speed a report shows as a number, if it shows one. *)
Definition report_speed (r : report) : option float :=
  match r with
  | SpeedLine _ _ v => Some v
  | _ => None
  end.

(** The effective status in the words of the specification: the cached
    status of the active subject if present, else the entry of the
    subject, else the placeholder. *)
Definition spec_effective_status (st : State) (appid : string) : string :=
  if truthy (active_status st) then active_status st
  else
    match Dict.get appid (app_status st) with
    | Some ss => ss
    | None => "?"
    end.

(** [s.endswith(suffix)] *)
Fixpoint ends_with (suffix s : string) : bool :=
  String.eqb suffix s ||
  match s with
  | EmptyString => false
  | String _ s' => ends_with suffix s'
  end.

Fixpoint all_digits (s : string) : bool :=
  match s with
  | EmptyString => true
  | String c s' => Text.is_digit c && all_digits s'
  end.

(** A numeral with exactly three decimals. *)
Definition three_decimals (s : string) : Prop :=
  exists sign ip a b c,
    s = (sign ++ ip ++ "." ++ String a (String b (String c EmptyString)))%string
    /\ (sign = EmptyString \/ sign = "-")
    /\ ip <> EmptyString /\ all_digits ip = true
    /\ Text.is_digit a = true /\ Text.is_digit b = true
    /\ Text.is_digit c = true.

(** [c * n]: the character repeated [n] times. *)
Fixpoint char_times (c : ascii) (n : nat) : string :=
  match n with
  | O => EmptyString
  | S n' => String c (char_times c n')
  end.

(** A text of [k] digits. *)
Definition digits_n (k : nat) (s : string) : Prop :=
  String.length s = k /\ all_digits s = true.

(** A timestamp of the form YYYY-MM-DD HH:MM:SS. *)
Definition timestamp_shape (s : string) : Prop :=
  exists y mo d h mi se,
    s = (y ++ "-" ++ mo ++ "-" ++ d ++ " " ++ h ++ ":" ++ mi ++ ":" ++ se)%string
    /\ digits_n 4 y /\ digits_n 2 mo /\ digits_n 2 d
    /\ digits_n 2 h /\ digits_n 2 mi /\ digits_n 2 se.

(** The text of one line feed. *)
Definition NL : string := String Tail.LF EmptyString.

(** The number of characters that lines take together. *)
Definition raw_total (ls : list (string * nat)) : nat :=
  fold_right (fun l acc => snd l + acc) 0 ls.

(** The number of characters the first line of a text takes. *)
Definition first_line_len (s : string) : nat :=
  match Tail.split_lines s with
  | [] => 0
  | (_, n) :: _ => n
  end.

(** Where the replay of [reopen_tail] starts in a file of text [content]:
    at the seek offset when that is 0, after the line read at the seek
    offset otherwise. *)
Definition seek_offset (content : string) : nat :=
  Z.to_nat (Z.max 0 (Z.of_nat (String.length content) - 200000)).

Definition replay_offset (content : string) : nat :=
  let start := seek_offset content in
  if 0 <? start then start + first_line_len (Tail.skip start content)
  else start.

(** The lines [reopen_tail] passes to [parse_line]. *)
Definition replay_lines (content : string) : list string :=
  map (fun l => Text.strip (fst l))
      (Tail.split_lines (Tail.skip (replay_offset content) content)).

(** *** The parts of a state, for the replay *)

(** The events of the lines, [None] when [float] rejects a number. *)
Fixpoint events_of (lines : list string) : option (list event) :=
  match lines with
  | [] => Some []
  | ln :: rest =>
      match classify ln with
      | NoEvent => events_of rest
      | Event e => option_map (cons e) (events_of rest)
      | BadNumber => None
      end
  end.

Definition apply_events (now : float) (es : list event) (st : State) : State :=
  fold_left (fun st e => apply_event now e st) es st.

(** A sequence of assignments [d[k] = v]. *)
Definition writes {V : Type} (ws : list (string * V)) (d : Dict.dict V)
  : Dict.dict V :=
  fold_left (fun d kv => Dict.set (fst kv) (snd kv) d) ws d.

(** The assignments of an event to [app_status] and to [seen]. *)
Definition status_writes (e : event) : list (string * string) :=
  match e with
  | SubjectUpdateChanged a raw =>
      if String.eqb (Text.lower (Text.strip raw)) "none"
      then [(a, nice_status raw); (a, IDLE)]
      else [(a, nice_status raw)]
  | SubjectUpdateStarted a => [(a, DOWNLOADING)]
  | SubjectUpdateCanceled a => [(a, PAUSED)]
  | SubjectFinished a => [(a, DONE)]
  | SubjectStateChanged a raw =>
      if Text.contains "suspended" (Text.lower raw) then [(a, PAUSED)] else []
  | _ => []
  end.

Definition seen_writes (now : float) (e : event) : list (string * float) :=
  match e with
  | SubjectUpdateChanged a _ | SubjectUpdateStarted a
  | SubjectUpdateCanceled a | SubjectFinished a => [(a, now)]
  | SubjectStateChanged a raw =>
      if Text.contains "suspended" (Text.lower raw) then [(a, now)] else []
  | _ => []
  end.

(** The active subject with its cached status. *)
Definition active (st : State) : option string * string :=
  (active_app st, active_status st).

(** [active_app == x] on such a pair. *)
Definition names (p : option string * string) (x : string) : bool :=
  match fst p with
  | Some a => String.eqb a x
  | None => false
  end.

(** What an event does to the active subject. *)
Definition act_step (e : event) (p : option string * string)
  : option string * string :=
  match e with
  | SubjectUpdateChanged x raw =>
      if any_active_keyword raw then (Some x, nice_status raw) else p
  | SubjectUpdateStarted x => (Some x, DOWNLOADING)
  | SubjectUpdateCanceled x => if names p x then (fst p, PAUSED) else p
  | SubjectFinished x => if names p x then (None, EmptyString) else p
  | SubjectStateChanged x raw =>
      if Text.contains "suspended" (Text.lower raw)
      then (if names p x then (fst p, PAUSED) else p)
      else p
  | _ => p
  end.

(** What a sequence of events does to the active subject. *)
Definition act_steps (es : list event) (p : option string * string)
  : option string * string :=
  fold_left (fun p e => act_step e p) es p.

(** What a sequence of events without an assignment of the active subject
    does to it, subject by subject. *)
Inductive action : Type := Keep | Pause | Clear.

Definition modify (f : string -> action) (p : option string * string)
  : option string * string :=
  match fst p with
  | None => p
  | Some x =>
      match f x with
      | Keep => p
      | Pause => (Some x, PAUSED)
      | Clear => (None, EmptyString)
      end
  end.

Definition then_action (g f : action) : action :=
  match g with
  | Keep => f
  | Pause => match f with Clear => Clear | _ => Pause end
  | Clear => Clear
  end.

(* ===================================================================== *)
(** ** The Steam root in the registry *)
(* ===================================================================== *)

Module Registry.

Inductive hive : Type := HKEY_CURRENT_USER | HKEY_LOCAL_MACHINE.

(** What [QueryValueEx] gives for a value: a string, or data of another
    type (a number, bytes, nothing). *)
Inductive reg_data : Type :=
| REG_str (v : string)
| REG_other.

(** The registry as [read_steam_root] sees it: the data of a value of a
    key, [None] when [OpenKey] or [QueryValueEx] raises [OSError]. *)
Definition registry : Type := hive -> string -> string -> option reg_data.

(** The list [tries]. *)
Definition tries : list (hive * string * string) :=
  [(HKEY_CURRENT_USER, "Software\Valve\Steam", "SteamPath");
   (HKEY_CURRENT_USER, "Software\Valve\Steam", "InstallPath");
   (HKEY_LOCAL_MACHINE, "Software\WOW6432Node\Valve\Steam", "InstallPath");
   (HKEY_LOCAL_MACHINE, "Software\Valve\Steam", "InstallPath")].

(** The loop of [read_steam_root] over a list of tries. *)
Fixpoint first_root (reg : registry) (ts : list (hive * string * string))
  : option string :=
  match ts with
  | [] => None
  | (root, subkey, value) :: rest =>
      match reg root subkey value with
      | Some (REG_str v) =>
          if truthy (Text.strip v) then Some (Text.strip v)
          else first_root reg rest
      | _ => first_root reg rest
      end
  end.

(** [read_steam_root()] *)
Definition read_steam_root (reg : registry) : option string :=
  first_root reg tries.

End Registry.

(* ===================================================================== *)
(** ** The display name of a subject *)
(* ===================================================================== *)

Module Manifest.

Definition QUOTE : ascii := "034"%char.

(** The atoms of [name_re], compiled with [re.IGNORECASE]: a literal
    character, a letter in either case, [\s], and the class of all
    characters but the quote. *)
Inductive nclass : Type :=
| n_lit (c : ascii)
| n_letter (c : ascii)     (* a lower-case letter of the pattern *)
| n_s
| n_not_quote.

Inductive ntok : Type :=
| n_open
| n_close
| n_atom (c : nclass) (q : Re.quant).

(** Membership in a class; [\s] is the white space of ASCII, which is
    all the white space of a text that is [Text.narrow]. *)
Definition in_nclass (k : nclass) (x : ascii) : bool :=
  match k with
  | n_lit c => Ascii.eqb x c
  | n_letter c => Ascii.eqb (Text.lower_char x) c
  | n_s => Text.is_space x
  | n_not_quote => negb (Ascii.eqb x QUOTE)
  end.

(** The matcher of [Re], over these atoms. *)
Fixpoint star (c : nclass) (k : nat -> string -> option Re.mstate)
    (i : nat) (s : string) {struct s} : option Re.mstate :=
  match s with
  | String x s' =>
      if in_nclass c x then
        match star c k (S i) s' with
        | Some r => Some r
        | None => k i s
        end
      else k i s
  | EmptyString => k i s
  end.

Fixpoint match_at (r : list ntok) {struct r}
  : nat -> string -> Re.mstate -> option Re.mstate :=
  match r with
  | [] => fun _ _ m => Some m
  | t :: r' =>
      let k := match_at r' in
      match t with
      | n_open => fun i s m =>
          k i s {| Re.opened := i :: Re.opened m; Re.spans := Re.spans m |}
      | n_close => fun i s m =>
          match Re.opened m with
          | b :: o =>
              k i s {| Re.opened := o; Re.spans := (b, i) :: Re.spans m |}
          | [] => None
          end
      | n_atom c Re.q_one => fun i s m =>
          match s with
          | String x s' => if in_nclass c x then k (S i) s' m else None
          | EmptyString => None
          end
      | n_atom c Re.q_star => fun i s m => star c (fun j t => k j t m) i s
      | n_atom c Re.q_plus => fun i s m =>
          match s with
          | String x s' =>
              if in_nclass c x then star c (fun j t => k j t m) (S i) s'
              else None
          | EmptyString => None
          end
      end
  end.

Fixpoint search_from (r : list ntok) (i : nat) (s : string)
  : option Re.mstate :=
  match match_at r i s Re.m_init with
  | Some m => Some m
  | None =>
      match s with
      | String _ s' => search_from r (S i) s'
      | EmptyString => None
      end
  end.

(** [r.search(data)]: [None], or the texts of the groups. *)
Definition search (r : list ntok) (data : string) : option (list string) :=
  match search_from r 0 data with
  | Some m =>
      Some (map (fun be => Text.slice (fst be) (snd be) data)
              (rev (Re.spans m)))
  | None => None
  end.

(** [name_re]: a quote, [\s*], the word [name] in any case, [\s*], a
    quote, [\s*], a quote, a group of one or more characters that are no
    quote, a quote. *)
Definition name_re : list ntok :=
  [n_atom (n_lit QUOTE) Re.q_one; n_atom n_s Re.q_star;
   n_atom (n_letter "n") Re.q_one; n_atom (n_letter "a") Re.q_one;
   n_atom (n_letter "m") Re.q_one; n_atom (n_letter "e") Re.q_one;
   n_atom n_s Re.q_star; n_atom (n_lit QUOTE) Re.q_one;
   n_atom n_s Re.q_star; n_atom (n_lit QUOTE) Re.q_one;
   n_open; n_atom n_not_quote Re.q_plus; n_close;
   n_atom (n_lit QUOTE) Re.q_one].

(** The files as [manifest_name] sees them.  [join lib fname] is
    [os.path.join(lib, "steamapps", fname)], [isfile] is [os.path.isfile]
    and [read p] is the text of the file at [p], [None] when opening or
    reading it raises [OSError]. *)
Record Files : Type := mkFiles {
  join : string -> string -> string;
  isfile : string -> bool;
  read : string -> option string
}.

(** [f"appmanifest_{appid}.acf"] *)
Definition manifest_file (appid : string) : string :=
  ("appmanifest_" ++ appid ++ ".acf")%string.

(** What one turn of the loop of [manifest_name] finds in a library. *)
Definition name_in (fs : Files) (lib appid : string) : option string :=
  let p := join fs lib (manifest_file appid) in
  if isfile fs p then
    match read fs p with
    | Some data =>
        match search name_re data with
        | Some m => Some (Text.strip (Re.group m 1))
        | None => None
        end
    | None => None
    end
  else None.

(** [manifest_name(libs, appid)] *)
Fixpoint manifest_name (fs : Files) (libs : list string) (appid : string)
  : option string :=
  match libs with
  | [] => None
  | lib :: rest =>
      match name_in fs lib appid with
      | Some name => Some name
      | None => manifest_name fs rest appid
      end
  end.

End Manifest.

(** *** More vocabulary *)

(** The subject of a subject event. *)
Definition subject_of (e : event) : option string :=
  match e with
  | SubjectUpdateChanged a _ | SubjectUpdateStarted a
  | SubjectUpdateCanceled a | SubjectFinished a
  | SubjectStateChanged a _ => Some a
  | _ => None
  end.

(** The states the tracker reaches on ASCII lines. *)
Inductive plain_reachable : State -> Prop :=
| plain_init : plain_reachable State_init
| plain_step (now : float) (line : string) (st st' : State) :
    plain_reachable st -> Text.plain line = true ->
    parse_line now line st = Some st' -> plain_reachable st'.

(** A subject key as the patterns capture it: digits, at least one. *)
Definition digits_key (s : string) : Prop :=
  s <> EmptyString /\ all_digits s = true.

(** Every subject of the state is a key of digits. *)
Definition keyed_by_digits (st : State) : Prop :=
  (forall k, In k (Dict.keys (app_status st)) -> digits_key k)
  /\ (forall a, active_app st = Some a -> digits_key a).

(** A float that is a number and has no minus sign. *)
Definition unsigned (v : float) : bool :=
  match v with
  | S754_zero s | S754_infinity s | S754_finite s _ _ => negb s
  | S754_nan => false
  end.

(** The metric sample is as [_set_speed] or the finished branch left it. *)
Definition sample_sound (st : State) : Prop :=
  match speed st with
  | None => speed_wall_ts st = of_nat 0
  | Some v =>
      unsigned v = true
      /\ (speed_src st = "rate" \/ speed_src st = "inc"
          \/ speed_src st = "stats")
  end.

(** What a sequence of events does to the metric sample, once the active
    subject it starts from is fixed: nothing, a new sample, or the
    clearing of the finished branch (which keeps the log timestamp and the
    source tag). *)
Inductive sample_change : Type :=
| SKeep
| SPut (c : option float * float * string * string)
| SClear.

Definition clear_sample (x : option float * float * string * string)
  : option float * float * string * string :=
  let '(_, _, ts, src) := x in (None, of_nat 0, ts, src).

Definition change_sample (g : sample_change)
    (x : option float * float * string * string)
  : option float * float * string * string :=
  match g with
  | SKeep => x
  | SPut c => c
  | SClear => clear_sample x
  end.

Definition then_change (g g' : sample_change) : sample_change :=
  match g' with
  | SKeep => g
  | SPut c => SPut c
  | SClear =>
      match g with
      | SKeep => SClear
      | SPut c => SPut (clear_sample c)
      | SClear => SClear
      end
  end.

(** [s[:n]] *)
Fixpoint take (n : nat) (s : string) : string :=
  match n, s with
  | S n', String c s' => String c (take n' s')
  | _, _ => EmptyString
  end.

(** Every character of the text is in the class. *)
Fixpoint all_in (k : Re.cclass) (s : string) : bool :=
  match s with
  | EmptyString => true
  | String c s' => Re.in_class k c && all_in k s'
  end.

(** The text has a space at neither end. *)
Definition trimmed (s : string) : Prop :=
  match s with
  | EmptyString => True
  | String c _ => Text.is_space c = false
  end
  /\ Text.rstrip s = s.

(* ===================================================================== *)
(** ** [parse_line] through its events *)
(* ===================================================================== *)

Lemma parse_line_classify (now : float) (line : string) (st : State) :
  parse_line now line st =
  match classify line with
  | NoEvent => Some st
  | Event e => Some (apply_event now e st)
  | BadNumber => None
  end.
Proof.
  unfold parse_line, classify, metric.
  destruct (Re.search upd_changed_re line); [reflexivity|].
  destruct (Re.search upd_started_re line); [reflexivity|].
  destruct (Re.search upd_canceled_re line); [reflexivity|].
  destruct (Re.search finished_re line); [reflexivity|].
  destruct (Re.search state_changed_re line) as [m|].
  { cbn [apply_event].
    destruct (Text.contains "suspended" (Text.lower (Re.group m 2)));
      reflexivity. }
  destruct (Re.search rate_re line);
    [destruct (of_str _); reflexivity|].
  destruct (Re.search inc_re line);
    [destruct (of_str _); reflexivity|].
  destruct (Re.search stats_re line);
    [destruct (of_str _); reflexivity|].
  reflexivity.
Qed.

Lemma parse_line_event (now : float) (line : string) (st : State) (e : event) :
  classify line = Event e ->
  parse_line now line st = Some (apply_event now e st).
Proof. intros H. rewrite parse_line_classify, H. reflexivity. Qed.

(** A call of [parse_line] that returns has applied at most one event. *)
Lemma parse_line_inv (now : float) (line : string) (st st' : State) :
  parse_line now line st = Some st' ->
  (classify line = NoEvent /\ st' = st) \/
  (exists e, classify line = Event e /\ st' = apply_event now e st).
Proof.
  rewrite parse_line_classify.
  destruct (classify line) as [|e|]; intros H; inversion H; subst.
  - left; split; reflexivity.
  - right; exists e; split; reflexivity.
Qed.

(* ===================================================================== *)
(** ** Dictionaries *)
(* ===================================================================== *)

Section DictFacts.
Context {V : Type}.
Implicit Types (d : Dict.dict V) (k : string) (v : V).

Lemma get_set_same k v d : Dict.get k (Dict.set k v d) = Some v.
Proof.
  induction d as [|[k' v'] d IH]; simpl.
  - rewrite String.eqb_refl. reflexivity.
  - destruct (String.eqb k' k) eqn:E; simpl.
    + rewrite String.eqb_refl. reflexivity.
    + rewrite E. exact IH.
Qed.

Lemma get_set_other k k' v d :
  k' <> k -> Dict.get k' (Dict.set k v d) = Dict.get k' d.
Proof.
  intros Hne. induction d as [|[k0 v0] d IH]; simpl.
  - destruct (String.eqb k k') eqn:E; [|reflexivity].
    apply String.eqb_eq in E. congruence.
  - destruct (String.eqb k0 k) eqn:E; simpl.
    + apply String.eqb_eq in E. subst k0.
      destruct (String.eqb k k') eqn:E'; [|reflexivity].
      apply String.eqb_eq in E'. congruence.
    + destruct (String.eqb k0 k'); [reflexivity | exact IH].
Qed.


Lemma get_in_keys k v d : Dict.get k d = Some v -> In k (Dict.keys d).
Proof.
  induction d as [|[k' v'] d IH]; simpl; [discriminate|].
  destruct (String.eqb k' k) eqn:E.
  - apply String.eqb_eq in E. intros _. left; exact E.
  - intros H. right. exact (IH H).
Qed.


(** Writing a key that is there keeps the keys and their order. *)
Lemma keys_set_present k v d :
  In k (Dict.keys d) -> Dict.keys (Dict.set k v d) = Dict.keys d.
Proof.
  induction d as [|[k' v'] d IH]; simpl; [intros []|].
  destruct (String.eqb k' k) eqn:E; simpl.
  - apply String.eqb_eq in E. subst k'. reflexivity.
  - intros [H|H].
    + subst k'. rewrite String.eqb_refl in E. discriminate.
    + rewrite (IH H). reflexivity.
Qed.

Lemma set_set_same k v v' d :
  Dict.set k v (Dict.set k v' d) = Dict.set k v d.
Proof.
  induction d as [|[k0 v0] d IH]; simpl.
  - rewrite String.eqb_refl. reflexivity.
  - destruct (String.eqb k0 k) eqn:E; simpl.
    + rewrite String.eqb_refl. reflexivity.
    + rewrite E, IH. reflexivity.
Qed.

Lemma set_get_same k v d : Dict.get k d = Some v -> Dict.set k v d = d.
Proof.
  induction d as [|[k0 v0] d IH]; simpl; [discriminate|].
  destruct (String.eqb k0 k) eqn:E.
  - apply String.eqb_eq in E. intros H. inversion H. subst. reflexivity.
  - intros H. rewrite (IH H). reflexivity.
Qed.

(** A write to a key that is there commutes with any other write. *)
Lemma set_set_swap k k' v v' d :
  k' <> k -> In k (Dict.keys d) ->
  Dict.set k' v' (Dict.set k v d) = Dict.set k v (Dict.set k' v' d).
Proof.
  intros Hne. induction d as [|[k0 v0] d IH]; simpl; [intros []|].
  intros Hin.
  destruct (String.eqb k0 k) eqn:E; simpl.
  - apply String.eqb_eq in E. subst k0.
    destruct (String.eqb k k') eqn:E'.
    + apply String.eqb_eq in E'. congruence.
    + simpl. rewrite String.eqb_refl. reflexivity.
  - destruct (String.eqb k0 k') eqn:E'; simpl.
    + apply String.eqb_eq in E'. subst k0. rewrite E. reflexivity.
    + rewrite E. f_equal. apply IH.
      destruct Hin as [H|H]; [|exact H].
      subst k0. rewrite String.eqb_refl in E. discriminate.
Qed.

End DictFacts.

(* ===================================================================== *)
(** ** The branches of [parse_line] one by one *)
(* ===================================================================== *)

Lemma active_is_true (st : State) (appid : string) :
  active_is st appid = true <-> active_app st = Some appid.
Proof.
  unfold active_is. destruct (active_app st) as [a|].
  - rewrite String.eqb_eq. split; congruence.
  - split; discriminate.
Qed.

Lemma active_is_false (st : State) (appid : string) :
  active_is st appid = false <-> active_app st <> Some appid.
Proof.
  rewrite <- active_is_true. destruct (active_is st appid); split; congruence.
Qed.



Lemma metric_event_effect (now : float) (e : event) (st : State)
    (v : float) (ts src : string) :
  metric_of e = Some (v, ts, src) ->
  sample (apply_event now e st) = (Some v, now, ts, src)
  /\ app_status (apply_event now e st) = app_status st
  /\ seen (apply_event now e st) = seen st
  /\ active_app (apply_event now e st) = active_app st
  /\ active_status (apply_event now e st) = active_status st.
Proof.
  destruct e; cbn; intros H; inversion H; subst; repeat split.
Qed.



(* ===================================================================== *)
(** ** The report *)
(* ===================================================================== *)

(** C9.  When an active subject is selected and the manifest lookup gives
    no name for it (nothing, or an empty name), the report is the
    nothing-active line: no status and no speed of the subject is shown. *)
Theorem unresolved_name_nothing_active
    (manifest_name : string -> option string) (out_time : string)
    (now : float) (st : State) (appid : string) :
  present (pick_active st) = Some appid ->
  present (manifest_name appid) = None ->
  tick manifest_name now st = NothingActive
  /\ report_line manifest_name out_time now st
     = ("[" ++ out_time ++ "] " ++ NOTHING)%string.
Proof.
  intros Ha Hn. unfold report_line, tick. rewrite Ha, Hn.
  split; reflexivity.
Qed.

Lemma unresolved_name_nothing_active_witness :
  tick (fun _ => None) (of_nat 1001)
       (set_active_app (Some "10") State_init) = NothingActive.
Proof.
  apply (unresolved_name_nothing_active (fun _ => None) EmptyString (of_nat 1001)
           (set_active_app (Some "10") State_init) "10");
    reflexivity.
Defined.

Lemma tick_resolved (manifest_name : string -> option string) (now : float)
    (st : State) (appid name : string) :
  present (pick_active st) = Some appid ->
  present (manifest_name appid) = Some name ->
  tick manifest_name now st =
  let ss := effective_status st appid in
  if String.eqb ss PAUSED then PausedLine name ss
  else if negb (speed_ok now st) then UnknownSpeed name ss
  else match speed st with
       | Some v => SpeedLine name ss v
       | None => UnknownSpeed name ss
       end.
Proof. intros Ha Hn. unfold tick. rewrite Ha, Hn. reflexivity. Qed.

(** C3 (amended).  At a report with a selected subject whose name
    resolves, the status shown is the entry of the subject in
    [app_status] when there is one, the cached status of the active
    subject only when there is none, and the placeholder when the one
    that applies is empty: the entry comes before the cached status. *)
Theorem effective_status_precedence
    (manifest_name : string -> option string) (now : float) (st : State)
    (appid name : string) :
  present (pick_active st) = Some appid ->
  present (manifest_name appid) = Some name ->
  report_status (tick manifest_name now st) =
  Some match Dict.get appid (app_status st) with
       | Some ss => if truthy ss then ss else "?"
       | None => if truthy (active_status st) then active_status st else "?"
       end.
Proof.
  intros Ha Hn. rewrite (tick_resolved _ _ _ _ _ Ha Hn). cbv zeta.
  assert (E : effective_status st appid =
              match Dict.get appid (app_status st) with
              | Some ss => if truthy ss then ss else "?"
              | None =>
                  if truthy (active_status st) then active_status st else "?"
              end).
  { unfold effective_status, Dict.get_default.
    destruct (Dict.get appid (app_status st)); reflexivity. }
  rewrite <- E.
  destruct (String.eqb _ PAUSED); [reflexivity|].
  destruct (negb _); [reflexivity|].
  destruct (speed st); reflexivity.
Qed.

Lemma effective_status_precedence_witness :
  report_status
    (tick (fun _ => Some "Game X") (of_nat 1001)
       (set_app_status "10" IDLE
          (set_active_status DOWNLOADING
             (set_active_app (Some "10") State_init))))
  = Some IDLE.
Proof.
  apply (effective_status_precedence (fun _ => Some "Game X") (of_nat 1001)
           (set_app_status "10" IDLE
              (set_active_status DOWNLOADING
                 (set_active_app (Some "10") State_init))) "10" "Game X");
    reflexivity.
Defined.

(** C3 as stated fails: after "update started" and "update changed : None"
    for subject 10 the cached status is the downloading label and the
    entry of the subject is the idle label; the report shows the entry,
    not the cached status. *)
Lemma cached_status_not_preferred :
  exists st,
    parse_lines (of_nat 1000)
      ["[2024-01-01 10:00:00] AppID 10 update started:";
       "[2024-01-01 10:00:05] AppID 10 update changed : None"]
      State_init = Some st
    /\ present (pick_active st) = Some "10"
    /\ active_status st = DOWNLOADING
    /\ spec_effective_status st "10" = DOWNLOADING
    /\ report_status (tick (fun _ => Some "Game X") (of_nat 1001) st)
       = Some IDLE
    /\ report_status (tick (fun _ => Some "Game X") (of_nat 1001) st)
       <> Some (spec_effective_status st "10").
Proof.
  eexists. split; [vm_compute; reflexivity|].
  repeat split; try (vm_compute; reflexivity).
  vm_compute. discriminate.
Qed.

(** The order of floats: [x < y] excludes [y <= x]. *)
Lemma ltb_not_leb (x y : float) : ltb x y = true -> leb y x = false.
Proof.
  unfold ltb, leb, SFltb, SFleb.
  destruct x as [sx|sx| |sx mx ex], y as [sy|sy| |sy my ey]; simpl;
    try discriminate; try reflexivity;
    try (destruct sx; discriminate || reflexivity);
    try (destruct sy; discriminate || reflexivity);
    try (destruct sx, sy; discriminate || reflexivity).
  destruct sx, sy; try discriminate; try reflexivity.
  - rewrite (Z.compare_antisym ex ey).
    destruct (ex ?= ey)%Z eqn:E; simpl; try discriminate; try reflexivity.
    replace (Pos.compare_cont Eq my mx)
      with (CompOpp (Pos.compare_cont Eq mx my))
      by (exact (Pos.compare_cont_antisym mx my Eq)).
    destruct (Pos.compare_cont Eq mx my); simpl;
      try discriminate; reflexivity.
  - rewrite (Z.compare_antisym ex ey).
    destruct (ex ?= ey)%Z eqn:E; simpl; try discriminate; try reflexivity.
    replace (Pos.compare_cont Eq my mx)
      with (CompOpp (Pos.compare_cont Eq mx my))
      by (exact (Pos.compare_cont_antisym mx my Eq)).
    destruct (Pos.compare_cont Eq mx my); simpl;
      try discriminate; reflexivity.
Qed.

(** C6 (amended).  A report never shows as a number a sample that is
    absent or whose receipt time is more than 300 seconds before the
    clock reading.  A report that reaches the speed field (a subject is
    selected, its name resolves and its status is not the paused label)
    shows the number when the sample is present and at most 300 seconds
    old, and the placeholder otherwise. *)
Theorem stale_sample_rule
    (manifest_name : string -> option string) (now : float) (st : State) :
  (speed st = None -> report_speed (tick manifest_name now st) = None)
  /\ (ltb stale_sec (sub now (speed_wall_ts st)) = true ->
      report_speed (tick manifest_name now st) = None)
  /\ (forall appid name,
        present (pick_active st) = Some appid ->
        present (manifest_name appid) = Some name ->
        effective_status st appid <> PAUSED ->
        (forall v,
           speed st = Some v ->
           leb (sub now (speed_wall_ts st)) stale_sec = true ->
           tick manifest_name now st
           = SpeedLine name (effective_status st appid) v)
        /\ (ltb stale_sec (sub now (speed_wall_ts st)) = true ->
            tick manifest_name now st
            = UnknownSpeed name (effective_status st appid))
        /\ (speed st = None ->
            tick manifest_name now st
            = UnknownSpeed name (effective_status st appid))).
Proof.
  assert (Hno : speed_ok now st = false ->
                report_speed (tick manifest_name now st) = None).
  { intros Hok. unfold tick.
    destruct (present (pick_active st)) as [a|]; [|reflexivity].
    destruct (present (manifest_name a)) as [n|]; [|reflexivity].
    destruct (String.eqb _ PAUSED); [reflexivity|].
    rewrite Hok. reflexivity. }
  assert (Hstale : ltb stale_sec (sub now (speed_wall_ts st)) = true ->
                   speed_ok now st = false).
  { intros H. unfold speed_ok. destruct (speed st); [|reflexivity].
    apply ltb_not_leb. exact H. }
  split; [|split].
  - intros Hs. apply Hno. unfold speed_ok. rewrite Hs. reflexivity.
  - intros H. apply Hno, Hstale, H.
  - intros appid name Ha Hn Hp.
    rewrite (tick_resolved _ _ _ _ _ Ha Hn). cbv zeta.
    apply String.eqb_neq in Hp. rewrite Hp.
    split; [|split].
    + intros v Hv Hle. unfold speed_ok. rewrite Hv, Hle. reflexivity.
    + intros H. rewrite (Hstale H). reflexivity.
    + intros Hs. unfold speed_ok. rewrite Hs. reflexivity.
Qed.

Lemma stale_sample_rule_witness :
  report_speed
    (tick (fun _ => Some "Game X") (of_nat 1301)
       (_set_speed (of_nat 1000)
          (set_app_status "10" DOWNLOADING
             (set_active_app (Some "10") State_init))
          (of_nat 12) "2024-01-01 10:00:01" "rate"))
  = None.
Proof.
  apply (proj1 (proj2
           (stale_sample_rule (fun _ => Some "Game X") (of_nat 1301)
              (_set_speed (of_nat 1000)
                 (set_app_status "10" DOWNLOADING
                    (set_active_app (Some "10") State_init))
                 (of_nat 12) "2024-01-01 10:00:01" "rate")))).
  vm_compute. reflexivity.
Defined.

(** C6 as stated fails: after "update started", a rate line and "update
    canceled" for subject 10 the sample is present and one second old,
    and the report one second later is the paused line, which shows no
    speed. *)
Lemma fresh_sample_not_shown_when_paused :
  exists st v,
    parse_lines (of_nat 1000)
      ["[2024-01-01 10:00:00] AppID 10 update started:";
       "[2024-01-01 10:00:01] Current download rate: 12.5 Mbps";
       "[2024-01-01 10:00:02] AppID 10 update canceled: user"]
      State_init = Some st
    /\ speed st = Some v
    /\ leb (sub (of_nat 1001) (speed_wall_ts st)) stale_sec = true
    /\ tick (fun _ => Some "Game X") (of_nat 1001) st
       = PausedLine "Game X" PAUSED
    /\ report_speed (tick (fun _ => Some "Game X") (of_nat 1001) st) = None.
Proof.
  eexists. eexists. split; [vm_compute; reflexivity|].
  repeat split; vm_compute; reflexivity.
Qed.

(** *** The [.3f] format *)

Lemma all_digits_uint (u : Decimal.uint) :
  all_digits (NilEmpty.string_of_uint u) = true.
Proof. induction u; simpl; try rewrite IHu; reflexivity. Qed.

Lemma decimal_digits (n : Z) :
  decimal n <> EmptyString /\ all_digits (decimal n) = true.
Proof.
  unfold decimal, NilZero.string_of_uint.
  destruct (N.to_uint (Z.to_N n)) as [|u|u|u|u|u|u|u|u|u|u] eqn:E;
    (split; [discriminate | try reflexivity; apply (all_digits_uint _)]).
Qed.

Lemma digit_char_digit (d : Z) :
  (0 <= d < 10)%Z -> Text.is_digit (digit_char d) = true.
Proof.
  intros H.
  assert (C : (d = 0 \/ d = 1 \/ d = 2 \/ d = 3 \/ d = 4 \/ d = 5
               \/ d = 6 \/ d = 7 \/ d = 8 \/ d = 9)%Z) by lia.
  repeat (destruct C as [->|C]; [reflexivity|]). subst d. reflexivity.
Qed.

Lemma fixed3_shape (t : Z) :
  exists ip a b c,
    fixed3 t = (ip ++ "." ++ String a (String b (String c EmptyString)))%string
    /\ ip <> EmptyString /\ all_digits ip = true
    /\ Text.is_digit a = true /\ Text.is_digit b = true
    /\ Text.is_digit c = true.
Proof.
  exists (decimal (t / 1000)), (digit_char (t / 100 mod 10)),
         (digit_char (t / 10 mod 10)), (digit_char (t mod 10)).
  destruct (decimal_digits (t / 1000)) as [Hne Hd].
  repeat split; try assumption;
    apply digit_char_digit; apply Z.mod_pos_bound; lia.
Qed.

Lemma format_3f_finite (v : float) :
  is_finite v = true -> three_decimals (format_3f v).
Proof.
  destruct v as [s|s| |s m e]; simpl; try discriminate; intros _.
  - exists (if s then "-" else EmptyString), "0", "0"%char, "0"%char, "0"%char.
    destruct s; repeat split; auto; discriminate.
  - destruct (fixed3_shape (thousandths m e))
      as (ip & a & b & c & E & Hne & Hd & Ha & Hb & Hc).
    exists (if s then "-" else EmptyString), ip, a, b, c.
    rewrite E. destruct s; repeat split; auto.
Qed.

(* ===================================================================== *)
(** ** The two dictionaries have the same subjects *)
(* ===================================================================== *)

Lemma keys_set_cong {V W : Type} (k : string) (v : V) (w : W)
    (d1 : Dict.dict V) (d2 : Dict.dict W) :
  Dict.keys d1 = Dict.keys d2 ->
  Dict.keys (Dict.set k v d1) = Dict.keys (Dict.set k w d2).
Proof.
  revert d2. induction d1 as [|[k1 v1] d1 IH]; intros [|[k2 v2] d2]; simpl;
    try discriminate; [reflexivity|].
  intros H. inversion H as [[Hk Hd]]. subst k2.
  destruct (String.eqb k1 k); simpl.
  - rewrite Hd. reflexivity.
  - rewrite (IH d2 Hd). reflexivity.
Qed.

Lemma apply_event_same_subjects (now : float) (e : event) (st : State) :
  same_subjects st -> same_subjects (apply_event now e st).
Proof.
  unfold same_subjects. intros H.
  destruct e as [a raw|a|a|a|a raw|v ts|v ts|v ts]; cbn [apply_event];
    try exact H.
  - destruct (any_active_keyword raw),
             (String.eqb (Text.lower (Text.strip raw)) "none"); cbn;
      rewrite ?set_set_same; apply keys_set_cong; exact H.
  - cbn. apply keys_set_cong; exact H.
  - destruct (active_is _ a); cbn; apply keys_set_cong; exact H.
  - destruct (active_is _ a); cbn; apply keys_set_cong; exact H.
  - destruct (Text.contains "suspended" (Text.lower raw)); [|exact H].
    destruct (active_is _ a); cbn; apply keys_set_cong; exact H.
Qed.

Lemma reachable_same_subjects (st : State) :
  reachable st -> same_subjects st.
Proof.
  induction 1 as [|now line st st' _ IH Hp]; [reflexivity|].
  destruct (parse_line_inv _ _ _ _ Hp) as [[_ ->]|(e & _ & ->)];
    [exact IH | apply apply_event_same_subjects; exact IH].
Qed.

(** *** What the loop of [pick_active] finds *)

Lemma pick_fold_some (st : State) (items : list (string * float))
    (best : option (float * string)) :
  best <> None \/
  (exists k ts, In (k, ts) items /\ in_progress (status_of st k) = true) ->
  fold_left (pick_step st) items best <> None.
Proof.
  revert best. induction items as [|[k ts] items IH]; intros best H; simpl.
  - destruct H as [H|(k & ts & [] & _)]. exact H.
  - apply IH.
    destruct H as [H|(k' & ts' & [Hin|Hin] & Hp)].
    + left. unfold pick_step. fold (status_of st k). fold (in_progress (status_of st k)).
      destruct (in_progress (status_of st k)); [|exact H].
      destruct best as [[bts b]|]; [|discriminate].
      destruct (ltb bts ts); discriminate.
    + inversion Hin; subst k' ts'. left.
      unfold pick_step. fold (status_of st k). fold (in_progress (status_of st k)).
      rewrite Hp.
      destruct best as [[bts b]|]; [|discriminate].
      destruct (ltb bts ts); discriminate.
    + right. exists k', ts'. split; assumption.
Qed.

Lemma pick_fold_in_progress (st : State) (items : list (string * float))
    (best : option (float * string)) (t : float) (a : string) :
  fold_left (pick_step st) items best = Some (t, a) ->
  best = Some (t, a) \/
  (In (a, t) items /\ in_progress (status_of st a) = true).
Proof.
  revert best. induction items as [|[k ts] items IH]; intros best; simpl.
  - intros H. left. exact H.
  - intros H. destruct (IH _ H) as [Hb|[Hin Hp]].
    + unfold pick_step in Hb. fold (status_of st k) in Hb.
      fold (in_progress (status_of st k)) in Hb.
      destruct (in_progress (status_of st k)) eqn:Hk; [|left; exact Hb].
      destruct best as [[bts b]|].
      * destruct (ltb bts ts).
        -- inversion Hb; subst. right. split; [left; reflexivity | exact Hk].
        -- left. exact Hb.
      * inversion Hb; subst. right. split; [left; reflexivity | exact Hk].
    + right. split; [right; exact Hin | exact Hp].
Qed.

Lemma in_keys_item {V : Type} (k : string) (d : Dict.dict V) :
  In k (Dict.keys d) -> exists v, In (k, v) d.
Proof.
  unfold Dict.keys. rewrite in_map_iff. intros ([k' v] & E & Hin).
  simpl in E. subst k'. exists v. exact Hin.
Qed.

Lemma in_progress_status (st : State) (a : string) :
  in_progress (status_of st a) = true ->
  Dict.get a (app_status st) = Some (status_of st a).
Proof.
  unfold status_of, Dict.get_default.
  destruct (Dict.get a (app_status st)); [reflexivity | discriminate].
Qed.

(** C10.  In every state reached from [State()] by calls of [parse_line],
    a subject with an entry in [app_status] has an entry in [seen].
    Hence the loop of [pick_active], which runs over the entries of
    [seen], meets every subject with a status: when no active subject is
    set and some subject has a status in progress, [pick_active] returns
    a subject whose status is in progress. *)
Theorem recorded_status_is_seen (st : State) :
  reachable st ->
  (forall k, In k (Dict.keys (app_status st)) -> In k (Dict.keys (seen st)))
  /\ (forall k ss,
        Dict.get k (app_status st) = Some ss ->
        in_progress ss = true ->
        present (active_app st) = None ->
        exists a ss',
          pick_active st = Some a
          /\ Dict.get a (app_status st) = Some ss'
          /\ in_progress ss' = true).
Proof.
  intros Hr. pose proof (reachable_same_subjects st Hr) as Hk.
  unfold same_subjects in Hk. split.
  - intros k Hin. rewrite <- Hk. exact Hin.
  - intros k ss Hg Hp Hact.
    assert (Hpick : pick_active st
                    = option_map snd (fold_left (pick_step st) (seen st) None)).
    { unfold pick_active. destruct (active_app st) as [a|]; [|reflexivity].
      simpl in Hact. destruct (truthy a); [discriminate | reflexivity]. }
    assert (Hin : In k (Dict.keys (seen st))).
    { rewrite <- Hk. exact (get_in_keys _ _ _ Hg). }
    destruct (in_keys_item _ _ Hin) as [ts Hts].
    assert (Hsome : fold_left (pick_step st) (seen st) None <> None).
    { apply pick_fold_some. right. exists k, ts. split; [exact Hts|].
      unfold status_of, Dict.get_default. rewrite Hg. exact Hp. }
    destruct (fold_left (pick_step st) (seen st) None) as [[t a]|] eqn:Hf;
      [|congruence].
    destruct (pick_fold_in_progress _ _ _ _ _ Hf) as [Hb|[_ Ha]];
      [discriminate|].
    exists a, (status_of st a). rewrite Hpick. simpl.
    repeat split; [apply in_progress_status; exact Ha | exact Ha].
Qed.

Lemma parse_lines_reachable (now : float) (lines : list string)
    (st st' : State) :
  reachable st -> parse_lines now lines st = Some st' -> reachable st'.
Proof.
  revert st. induction lines as [|ln lines IH]; intros st Hr; simpl.
  - intros H. inversion H. subst. exact Hr.
  - destruct (parse_line now ln st) as [st1|] eqn:Hp; [|discriminate].
    apply IH. exact (reach_step now ln st st1 Hr Hp).
Qed.

Lemma recorded_status_is_seen_witness :
  exists st a ss',
    parse_lines (of_nat 1000)
      ["[2024-01-01 10:00:00] AppID 10 update canceled: user";
       "[2024-01-01 10:00:07] AppID 20 update changed : None"]
      State_init = Some st
    /\ pick_active st = Some a
    /\ Dict.get a (app_status st) = Some ss'
    /\ in_progress ss' = true.
Proof.
  eexists.
  assert (Hrun : parse_lines (of_nat 1000)
            ["[2024-01-01 10:00:00] AppID 10 update canceled: user";
             "[2024-01-01 10:00:07] AppID 20 update changed : None"]
            State_init = Some _) by (vm_compute; reflexivity).
  destruct (proj2 (recorded_status_is_seen _
                     (parse_lines_reachable _ _ _ _ reach_init Hrun))
              "10" PAUSED)
    as (a & ss' & H1 & H2 & H3); try reflexivity.
  exists a, ss'. repeat split; assumption.
Defined.

(* ===================================================================== *)
(** ** The cached status of the active subject *)
(* ===================================================================== *)

Section Occurs.
Import Text.









End Occurs.


Lemma keys_set_mono {V : Type} (k k' : string) (v : V) (d : Dict.dict V) :
  In k (Dict.keys d) -> In k (Dict.keys (Dict.set k' v d)).
Proof.
  induction d as [|[k0 v0] d IH]; simpl; [intros []|].
  destruct (String.eqb k0 k') eqn:E; simpl.
  - apply String.eqb_eq in E. subst k0. intros H. exact H.
  - intros [H|H]; [left; exact H | right; exact (IH H)].
Qed.

Lemma active_is_set_maps (st : State) (a b : string) (ss : string)
    (t : float) :
  active_is (set_seen a t (set_app_status a ss st)) b = active_is st b.
Proof. reflexivity. Qed.






(* ===================================================================== *)
(** ** Replaying the same lines *)
(* ===================================================================== *)

Lemma parse_lines_events (now : float) (lines : list string) (st : State) :
  parse_lines now lines st
  = option_map (fun es => apply_events now es st) (events_of lines).
Proof.
  revert st. induction lines as [|ln lines IH]; intros st; simpl;
    [reflexivity|].
  rewrite parse_line_classify.
  destruct (classify ln) as [|e|]; [apply IH | | reflexivity].
  rewrite IH. destruct (events_of lines); reflexivity.
Qed.

Lemma events_of_app (l1 l2 : list string) :
  events_of (l1 ++ l2) =
  match events_of l1, events_of l2 with
  | Some a, Some b => Some (a ++ b)
  | _, _ => None
  end.
Proof.
  induction l1 as [|ln l1 IH]; simpl.
  - destruct (events_of l2); reflexivity.
  - destruct (classify ln); [exact IH | | reflexivity].
    rewrite IH. destruct (events_of l1), (events_of l2); reflexivity.
Qed.

Lemma apply_events_cons (now : float) (e : event) (es : list event)
    (st : State) :
  apply_events now (e :: es) st = apply_events now es (apply_event now e st).
Proof. reflexivity. Qed.

Lemma apply_events_app (now : float) (a b : list event) (st : State) :
  apply_events now (a ++ b) st = apply_events now b (apply_events now a st).
Proof. unfold apply_events. apply fold_left_app. Qed.

(** *** The dictionaries *)

Section Writes.
Context {V : Type}.
Implicit Types (d : Dict.dict V) (ws : list (string * V)).

Lemma writes_app ws1 ws2 d : writes (ws1 ++ ws2) d = writes ws2 (writes ws1 d).
Proof. unfold writes. apply fold_left_app. Qed.

Lemma writes_keys_mono k ws d :
  In k (Dict.keys d) -> In k (Dict.keys (writes ws d)).
Proof.
  revert d. induction ws as [|[k' v'] ws IH]; intros d H; simpl; [exact H|].
  apply IH, keys_set_mono, H.
Qed.

Lemma writes_get_untouched k ws d :
  ~ In k (map fst ws) -> Dict.get k (writes ws d) = Dict.get k d.
Proof.
  revert d. induction ws as [|[k' v'] ws IH]; intros d H; simpl;
    [reflexivity|].
  simpl in H. rewrite IH by tauto. apply get_set_other. intros E. subst k'.
  apply H. left. reflexivity.
Qed.

(** A write to a key that is there is lost when the sequence writes the
    key again. *)
Lemma writes_overwritten k v ws d :
  In k (Dict.keys d) -> In k (map fst ws) ->
  writes ws (Dict.set k v d) = writes ws d.
Proof.
  revert d. induction ws as [|[k' v'] ws IH]; intros d Hd Hw; simpl;
    [destruct Hw|].
  destruct (string_dec k' k) as [->|Hne].
  - rewrite set_set_same. reflexivity.
  - rewrite (set_set_swap k k' v v' d Hne Hd).
    apply IH.
    + apply keys_set_mono, Hd.
    + destruct Hw as [E|Hw]; [simpl in E; congruence | exact Hw].
Qed.

Lemma writes_absorb k v ws d :
  Dict.get k d = Some v ->
  writes ws (Dict.set k v (writes ws d)) = writes ws (writes ws d).
Proof.
  intros Hg.
  destruct (in_dec string_dec k (map fst ws)) as [Hin|Hout].
  - apply writes_overwritten; [|exact Hin].
    apply writes_keys_mono. exact (get_in_keys _ _ _ Hg).
  - rewrite set_get_same; [reflexivity|].
    rewrite writes_get_untouched by exact Hout. exact Hg.
Qed.

(** Doing the assignments a second time changes nothing. *)
Lemma writes_idem ws d : writes ws (writes ws d) = writes ws d.
Proof.
  revert d. induction ws as [|[k v] ws IH]; intros d; [reflexivity|].
  change (writes ws (Dict.set k v (writes ws (Dict.set k v d)))
          = writes ws (Dict.set k v d)).
  rewrite writes_absorb by apply get_set_same. apply IH.
Qed.

End Writes.

Lemma app_status_event (now : float) (e : event) (st : State) :
  app_status (apply_event now e st) = writes (status_writes e) (app_status st).
Proof.
  destruct e as [a raw|a|a|a|a raw|v ts|v ts|v ts]; cbn [apply_event status_writes];
    try reflexivity.
  - destruct (any_active_keyword raw),
             (String.eqb (Text.lower (Text.strip raw)) "none"); reflexivity.
  - destruct (active_is _ a); reflexivity.
  - destruct (active_is _ a); reflexivity.
  - destruct (Text.contains "suspended" (Text.lower raw)); [|reflexivity].
    destruct (active_is _ a); reflexivity.
Qed.

Lemma seen_event (now : float) (e : event) (st : State) :
  seen (apply_event now e st) = writes (seen_writes now e) (seen st).
Proof.
  destruct e as [a raw|a|a|a|a raw|v ts|v ts|v ts]; cbn [apply_event seen_writes];
    try reflexivity.
  - destruct (any_active_keyword raw),
             (String.eqb (Text.lower (Text.strip raw)) "none"); reflexivity.
  - destruct (active_is _ a); reflexivity.
  - destruct (active_is _ a); reflexivity.
  - destruct (Text.contains "suspended" (Text.lower raw)); [|reflexivity].
    destruct (active_is _ a); reflexivity.
Qed.

Lemma app_status_events (now : float) (es : list event) (st : State) :
  app_status (apply_events now es st)
  = writes (flat_map status_writes es) (app_status st).
Proof.
  revert st. induction es as [|e es IH]; intros st; [reflexivity|].
  change (apply_events now (e :: es) st)
    with (apply_events now es (apply_event now e st)).
  cbn [flat_map]. rewrite IH, app_status_event, writes_app. reflexivity.
Qed.

Lemma seen_events (now : float) (es : list event) (st : State) :
  seen (apply_events now es st)
  = writes (flat_map (seen_writes now) es) (seen st).
Proof.
  revert st. induction es as [|e es IH]; intros st; [reflexivity|].
  change (apply_events now (e :: es) st)
    with (apply_events now es (apply_event now e st)).
  cbn [flat_map]. rewrite IH, seen_event, writes_app. reflexivity.
Qed.

(** *** The active subject *)

Lemma names_active (st : State) (x : string) :
  names (active st) x = active_is st x.
Proof. reflexivity. Qed.

Lemma active_event (now : float) (e : event) (st : State) :
  active (apply_event now e st) = act_step e (active st).
Proof.
  destruct e as [a raw|a|a|a|a raw|v ts|v ts|v ts];
    cbn [apply_event act_step]; try reflexivity.
  - destruct (any_active_keyword raw),
             (String.eqb (Text.lower (Text.strip raw)) "none"); reflexivity.
  - rewrite names_active, active_is_set_maps.
    destruct (active_is st a); reflexivity.
  - rewrite names_active, active_is_set_maps.
    destruct (active_is st a); reflexivity.
  - destruct (Text.contains "suspended" (Text.lower raw)); [|reflexivity].
    rewrite names_active, active_is_set_maps.
    destruct (active_is st a); reflexivity.
Qed.

Lemma active_events (now : float) (es : list event) (st : State) :
  active (apply_events now es st) = act_steps es (active st).
Proof.
  revert st. induction es as [|e es IH]; intros st; [reflexivity|].
  change (apply_events now (e :: es) st)
    with (apply_events now es (apply_event now e st)).
  rewrite IH, active_event. reflexivity.
Qed.

Lemma modify_modify (g f : string -> action) (p : option string * string) :
  modify f (modify g p) = modify (fun x => then_action (g x) (f x)) p.
Proof.
  destruct p as [[x|] s]; unfold modify; simpl; [|reflexivity].
  destruct (g x); simpl; [reflexivity | | reflexivity].
  destruct (f x); reflexivity.
Qed.

Lemma modify_idem (f : string -> action) (p : option string * string) :
  modify f (modify f p) = modify f p.
Proof.
  destruct p as [[x|] s]; unfold modify; simpl; [|reflexivity].
  destruct (f x) eqn:E; simpl; rewrite ?E; reflexivity.
Qed.

(** An event either assigns the active subject, whatever it was, or
    treats it subject by subject. *)
Lemma act_step_shape (e : event) :
  (exists c, forall p, act_step e p = c)
  \/ (exists f, forall p, act_step e p = modify f p).
Proof.
  assert (Hid : forall p : option string * string,
             p = modify (fun _ => Keep) p).
  { intros [[x|] s]; reflexivity. }
  assert (Hcond : forall (a : string) (r : action) p,
             (if names p a
              then match r with
                   | Keep => p
                   | Pause => (fst p, PAUSED)
                   | Clear => (None, EmptyString)
                   end
              else p)
             = modify (fun y => if String.eqb y a then r else Keep) p).
  { intros a r [[x|] s]; unfold names, modify; simpl; [|reflexivity].
    destruct (String.eqb x a); [destruct r|]; reflexivity. }
  destruct e as [a raw|a|a|a|a raw|v ts|v ts|v ts]; cbn [act_step];
    try (right; exists (fun _ => Keep); exact Hid).
  - destruct (any_active_keyword raw).
    + left. eexists. intros p. reflexivity.
    + right. exists (fun _ => Keep). exact Hid.
  - left. eexists. intros p. reflexivity.
  - right. eexists. intros p. exact (Hcond a Pause p).
  - right. eexists. intros p. exact (Hcond a Clear p).
  - destruct (Text.contains "suspended" (Text.lower raw)).
    + right. eexists. intros p. exact (Hcond a Pause p).
    + right. exists (fun _ => Keep). exact Hid.
Qed.

Lemma act_steps_cons (e : event) (es : list event)
    (p : option string * string) :
  act_steps (e :: es) p = act_steps es (act_step e p).
Proof. reflexivity. Qed.

Lemma act_steps_shape (es : list event) :
  (exists c, forall p, act_steps es p = c)
  \/ (exists f, forall p, act_steps es p = modify f p).
Proof.
  induction es as [|e es IH].
  - right. exists (fun _ => Keep). intros [[x|] s]; reflexivity.
  - destruct IH as [[c Hc]|[f Hf]].
    + left. exists c. intros p. apply (Hc (act_step e p)).
    + destruct (act_step_shape e) as [[c Hc]|[g Hg]].
      * left. exists (modify f c). intros p.
        rewrite act_steps_cons, Hf, Hc. reflexivity.
      * right. eexists. intros p.
        rewrite act_steps_cons, Hf, Hg. apply modify_modify.
Qed.

(** Replaying the events leaves the active subject as the first pass
    left it. *)
Lemma act_steps_idem (es : list event) (p : option string * string) :
  act_steps es (act_steps es p) = act_steps es p.
Proof.
  destruct (act_steps_shape es) as [[c Hc]|[f Hf]].
  - rewrite !Hc. reflexivity.
  - rewrite !Hf. apply modify_idem.
Qed.

(** *** The metric sample *)






Lemma State_ext (s1 s2 : State) :
  app_status s1 = app_status s2 -> seen s1 = seen s2 ->
  active s1 = active s2 -> sample s1 = sample s2 -> s1 = s2.
Proof.
  destruct s1, s2. unfold active, sample. simpl.
  intros -> -> H1 H2. inversion H1. inversion H2. subst. reflexivity.
Qed.

Lemma replay_events (now : float) (es : list event) (st : State) :
  let s1 := apply_events now es st in
  let s2 := apply_events now es s1 in
  app_status s2 = app_status s1 /\ seen s2 = seen s1 /\ active s2 = active s1.
Proof.
  cbv zeta. repeat split.
  - rewrite !app_status_events. apply writes_idem.
  - rewrite !seen_events. apply writes_idem.
  - rewrite !active_events. apply act_steps_idem.
Qed.





(* ===================================================================== *)
(** ** Reopening the log *)
(* ===================================================================== *)

Section TailFacts.
Import Tail.

Lemma raw_total_cons (l : string * nat) (ls : list (string * nat)) :
  raw_total (l :: ls) = snd l + raw_total ls.
Proof. reflexivity. Qed.

Lemma split_lines_total_le (n : nat) (s : string) :
  String.length s <= n -> raw_total (split_lines s) = String.length s.
Proof.
  revert s. induction n as [|n IH]; intros s Hn.
  - destruct s; [reflexivity | simpl in Hn; lia].
  - destruct s as [|c s]; [reflexivity|].
    simpl in Hn. assert (Hs : String.length s <= n) by lia.
    cbn [split_lines String.length].
    destruct (Ascii.eqb c LF).
    { rewrite raw_total_cons, (IH s Hs). reflexivity. }
    destruct (Ascii.eqb c CR).
    { destruct s as [|c2 s2]; [reflexivity|].
      destruct (Ascii.eqb c2 LF).
      - rewrite raw_total_cons, (IH s2) by (simpl in Hs; lia). reflexivity.
      - rewrite raw_total_cons, (IH (String c2 s2) Hs). reflexivity. }
    pose proof (IH s Hs) as E.
    destruct (split_lines s) as [|[l k] r].
    + rewrite <- E. reflexivity.
    + rewrite raw_total_cons in *. cbn [snd] in *. rewrite <- E. reflexivity.
Qed.

(** The lines of a text take all its characters. *)
Lemma split_lines_total (s : string) :
  raw_total (split_lines s) = String.length s.
Proof. apply (split_lines_total_le (String.length s)). lia. Qed.

Lemma first_line_len_le (s : string) : first_line_len s <= String.length s.
Proof.
  unfold first_line_len. rewrite <- split_lines_total.
  destruct (split_lines s) as [|[l n] r]; cbn; lia.
Qed.

Lemma skip_length (n : nat) (s : string) :
  String.length (skip n s) = String.length s - n.
Proof.
  revert s. induction n as [|n IH]; intros [|c s]; simpl; try reflexivity.
  apply IH.
Qed.

Lemma skip_all (n : nat) (s : string) :
  String.length s <= n -> skip n s = EmptyString.
Proof.
  intros H. pose proof (skip_length n s) as E.
  destruct (skip n s); [reflexivity | simpl in E; lia].
Qed.

(** What [for ln in f] delivers and where it leaves the file. *)
Lemma read_all_spec (ls : list (string * nat)) (fl : File) :
  let '(out, fl') := read_all ls fl in
  out = map fst ls
  /\ data fl' = data fl /\ closed fl' = closed fl
  /\ cursor fl' = cursor fl + raw_total ls
  /\ exists rs,
       reads fl' = rs ++ cursor fl :: reads fl
       /\ Forall (fun o => cursor fl <= o <= cursor fl + raw_total ls) rs.
Proof.
  revert fl. induction ls as [|[l n] ls IH]; intros fl.
  - cbn. repeat split; try lia. exists []. split; [reflexivity | constructor].
  - cbn [read_all].
    pose proof (IH (advance n fl)) as IH'.
    destruct (read_all ls (advance n fl)) as [out fl'].
    destruct IH' as (Ho & Hd & Hc & Hcur & rs & Hr & Hall).
    cbn [advance data closed cursor reads] in Hd, Hc, Hcur, Hr, Hall.
    rewrite raw_total_cons. cbn [map fst snd].
    repeat split; try congruence; try lia.
    exists (rs ++ [cursor fl + n]). split.
    + rewrite Hr, <- app_assoc. reflexivity.
    + apply Forall_app. split.
      * eapply Forall_impl; [|exact Hall]. cbn. intros o Ho'. lia.
      * constructor; [lia | constructor].
Qed.

Lemma seek_offset_le (content : string) :
  seek_offset content <= String.length content.
Proof. unfold seek_offset. lia. Qed.

Lemma replay_offset_bounds (content : string) :
  seek_offset content <= replay_offset content <= String.length content.
Proof.
  unfold replay_offset. pose proof (seek_offset_le content) as H.
  destruct (0 <? seek_offset content); [|lia].
  pose proof (first_line_len_le (skip (seek_offset content) content)) as F.
  rewrite skip_length in F. lia.
Qed.

(** [reopen_tail] on a file that can be opened. *)
Lemma reopen_tail_spec (clock : nat -> float) (content : string)
    (t : Tailer) (st : State) :
  match run clock 0 (replay_lines content) st with
  | None => reopen_tail clock (Some content) t st = Died
  | Some st' =>
      exists fl,
        reopen_tail clock (Some content) t st
        = Returned (mkTailer (Some fl) (Z.of_nat (String.length content))) st'
        /\ data fl = content /\ closed fl = false
        /\ cursor fl = String.length content
        /\ (exists rs, reads fl = rs ++ [seek_offset content])
        /\ Forall (fun o => seek_offset content <= o <= String.length content)
                  (reads fl)
  end.
Proof.
  unfold reopen_tail.
  set (start := Z.max 0 (Z.of_nat (String.length content) - 200000)).
  assert (Hstart : Z.to_nat start = seek_offset content) by reflexivity.
  pose proof (replay_offset_bounds content) as [Hlo Hhi].
  set (f0 := seek (Z.to_nat start) (open content)).
  set (f1 := if (start >? 0)%Z then snd (readline f0) else f0).
  assert (H1 : data f1 = content /\ closed f1 = false
               /\ cursor f1 = replay_offset content
               /\ (exists rs, reads f1 = rs /\
                     (rs = [] \/ rs = [seek_offset content]))).
  { unfold f1, replay_offset. rewrite <- Hstart.
    destruct (start >? 0)%Z eqn:Hgt.
    - assert (Hpos : (0 <? Z.to_nat start) = true)
        by (apply Nat.ltb_lt; lia).
      rewrite Hpos. unfold readline, first_line_len. cbn [f0 seek open cursor data].
      destruct (split_lines (skip (Z.to_nat start) content)) as [|[l n] r];
        cbn; repeat split; try lia; eexists; split; try reflexivity;
        right; reflexivity.
    - assert (Hz : (0 <? Z.to_nat start) = false)
        by (apply Nat.ltb_ge; lia).
      rewrite Hz. cbn. repeat split. eexists; split; [reflexivity|].
      left. reflexivity. }
  destruct H1 as (Hd1 & Hc1 & Hcur1 & rs1 & Hr1 & Hrs1).
  unfold for_lines.
  pose proof (read_all_spec (split_lines (skip (cursor f1) (data f1))) f1)
    as Hall.
  destruct (read_all (split_lines (skip (cursor f1) (data f1))) f1)
    as [lns fl].
  destruct Hall as (Ho & Hd & Hc & Hcur & rs & Hr & Hb).
  rewrite Hd1, Hcur1 in *.
  rewrite split_lines_total, skip_length in Hcur, Hb.
  assert (Hlines : map Text.strip lns = replay_lines content).
  { unfold replay_lines. rewrite Ho, map_map. reflexivity. }
  rewrite Hlines.
  destruct (run clock 0 (replay_lines content) st) as [st'|]; [|reflexivity].
  exists fl. unfold tell.
  assert (Hend : cursor fl = String.length content) by lia.
  rewrite Hend. repeat split; try congruence.
  - rewrite Hr, Hr1.
    destruct Hrs1 as [->| ->].
    + (* no line was discarded: the first read is at the replay offset *)
      assert (E : replay_offset content = seek_offset content).
      { unfold replay_offset in *.
        destruct (0 <? seek_offset content) eqn:Hz; [|reflexivity].
        unfold f1 in Hr1.
        destruct (start >? 0)%Z eqn:Hgt.
        - unfold readline in Hr1. cbn in Hr1.
          destruct (split_lines (skip (Z.to_nat start) content))
            as [|[l n] r]; discriminate Hr1.
        - apply Nat.ltb_lt in Hz. lia. }
      rewrite E. exists rs. reflexivity.
    + exists (rs ++ [replay_offset content]).
      rewrite <- app_assoc. reflexivity.
  - rewrite Hr, Hr1. apply Forall_app. split.
    + eapply Forall_impl; [|exact Hb]. cbn. intros o Ho'. lia.
    + constructor; [lia|].
      destruct Hrs1 as [->| ->]; constructor; [|constructor].
      pose proof (seek_offset_le content). lia.
Qed.

End TailFacts.

(** One turn of the loop that finds the file shorter than [pos]: the file
    is reopened, the replay starts at [replay_offset content], that is at
    offset 0 when the file has at most 200000 characters and after the
    line cut by the seek otherwise, every line from there on is passed to
    [parse_line], and [pos] becomes the length of the file; every read is
    between the seek offset and the end of the new file, so none is at the
    old [pos].  All this holds when [float] accepts every number of the
    replayed lines; otherwise the turn ends with the exception. *)
Lemma shrink_reopens (clock : nat -> float) (now : float) (content : string)
    (t : Tail.Tailer) (st : State) :
  (Z.of_nat (String.length content) < Tail.pos t)%Z ->
  match run clock 0 (replay_lines content) st with
  | None => Tail.tail_step clock now (Some content) t st = Tail.Died
  | Some st' =>
      exists fl,
        Tail.tail_step clock now (Some content) t st
        = Tail.Returned
            (Tail.mkTailer (Some fl) (Z.of_nat (String.length content))) st'
        /\ Tail.data fl = content
        /\ Tail.cursor fl = String.length content
        /\ (exists rs, Tail.reads fl = rs ++ [seek_offset content])
        /\ Forall (fun o => seek_offset content <= o <= String.length content)
                  (Tail.reads fl)
        /\ ~ In (Z.to_nat (Tail.pos t)) (Tail.reads fl)
  end.
Proof.
  intros Hlt. unfold Tail.tail_step.
  apply Z.ltb_lt in Hlt. rewrite Hlt. apply Z.ltb_lt in Hlt.
  pose proof (reopen_tail_spec clock content t st) as Hre.
  destruct (run clock 0 (replay_lines content) st) as [st'|];
    [|rewrite Hre; reflexivity].
  destruct Hre as (fl & -> & Hd & Hc & Hcur & (rs & Hrs) & Hall).
  cbn [Tail.f Tail.pos]. rewrite Hc, Hcur.
  unfold Tail.readline. cbn [Tail.cursor Tail.data].
  rewrite skip_all by lia. cbn [Tail.split_lines truthy String.eqb negb].
  eexists. split; [reflexivity|].
  cbn [Tail.advance Tail.data Tail.cursor Tail.reads].
  assert (Hall' : Forall
            (fun o => seek_offset content <= o <= String.length content)
            (String.length content :: Tail.reads fl)).
  { constructor; [|exact Hall].
    pose proof (seek_offset_le content). lia. }
  repeat split.
  - lia.
  - exists (String.length content :: rs). rewrite Hrs. reflexivity.
  - exact Hall'.
  - intros Hin. rewrite Forall_forall in Hall'.
    specialize (Hall' _ Hin). lia.
Qed.

(** The rotation scenario: [pos] is 1000 and the file now has 50
    characters. *)
Example rotation_scenario :
  exists fl st',
    Tail.tail_step (fun _ => of_nat 1000) (of_nat 1000)
      (Some "[2024-01-01 10:00:00] AppID 10 update started: xyz")
      (Tail.mkTailer (Some (Tail.mkFile EmptyString 1000 false [])) 1000) State_init
    = Tail.Returned (Tail.mkTailer (Some fl) 50) st'
    /\ Tail.reads fl = [50; 50; 0]
    /\ active_app st' = Some "10".
Proof.
  eexists. eexists. split; [vm_compute; reflexivity|].
  split; reflexivity.
Qed.

(** C7.  The turn of the loop that finds the file shorter than [pos]
    does not always replay the lines and set [pos]: for [pos = 1000] and
    a new file whose only line is a rate line with the number [1.2.3],
    the replay starts at offset 0, [float] raises [ValueError] in
    [parse_line], nothing catches it, and the turn ends without a new
    [pos]. *)
Theorem reopen_dies_on_bad_number :
  seek_offset
    ("[2024-01-01 10:00:01] Current download rate: 1.2.3 Mbps" ++ NL)%string
  = 0
  /\ replay_lines
       ("[2024-01-01 10:00:01] Current download rate: 1.2.3 Mbps" ++ NL)%string
     = ["[2024-01-01 10:00:01] Current download rate: 1.2.3 Mbps"]
  /\ classify "[2024-01-01 10:00:01] Current download rate: 1.2.3 Mbps"
     = BadNumber
  /\ Tail.tail_step (fun _ => of_nat 1000) (of_nat 1000)
       (Some ("[2024-01-01 10:00:01] Current download rate: 1.2.3 Mbps"
              ++ NL)%string)
       (Tail.mkTailer (Some (Tail.mkFile EmptyString 1000 false [])) 1000) State_init
     = Tail.Died.
Proof. repeat split; vm_compute; reflexivity. Qed.

(* ===================================================================== *)
(** ** Stripped texts *)
(* ===================================================================== *)

Section Strip.
Import Text.

Lemma lstrip_head (s : string) :
  match lstrip s with
  | EmptyString => True
  | String c _ => is_space c = false
  end.
Proof.
  induction s as [|c s IH]; simpl; [exact I|].
  destruct (is_space c) eqn:E; [exact IH | exact E].
Qed.

Lemma rstrip_cons_keep (c : ascii) (s : string) :
  is_space c = false -> rstrip (String c s) = String c (rstrip s).
Proof.
  intros H. simpl. destruct (rstrip s); [rewrite H|]; reflexivity.
Qed.

Lemma rstrip_idem (s : string) : rstrip (rstrip s) = rstrip s.
Proof.
  induction s as [|c s IH]; [reflexivity|].
  simpl. destruct (rstrip s) as [|d r] eqn:E.
  - destruct (is_space c) eqn:Hc; [reflexivity|].
    simpl. rewrite Hc. reflexivity.
  - change (rstrip (String c (String d r)) = String c (String d r)).
    change (rstrip (String c (String d r)))
      with (match rstrip (String d r) with
            | EmptyString =>
                if is_space c then EmptyString else String c EmptyString
            | x => String c x
            end).
    rewrite IH. reflexivity.
Qed.

(** [s.strip()] has a space at neither end. *)
Lemma strip_trimmed (s : string) : trimmed (strip s).
Proof.
  unfold trimmed, strip. split; [|apply rstrip_idem].
  pose proof (lstrip_head s) as H.
  destruct (lstrip s) as [|c t]; [exact I|].
  rewrite (rstrip_cons_keep c t H). exact H.
Qed.

Lemma trimmed_strip (s : string) : trimmed s -> strip s = s.
Proof.
  intros [Hh Hr]. unfold strip.
  destruct s as [|c t]; [reflexivity|].
  simpl lstrip. rewrite Hh. exact Hr.
Qed.

Lemma plain_no_high (s : string) (a : ascii) (w : string) :
  plain s = true -> 128 <= nat_of_ascii a ->
  contains (String a w) s = false.
Proof.
  intros Hp Ha. induction s as [|c s IH]; [reflexivity|].
  cbn [plain] in Hp. apply andb_true_iff in Hp as [Hc Hs].
  apply Nat.ltb_lt in Hc.
  cbn [contains starts_with]. rewrite (IH Hs), orb_false_r.
  assert (E : Ascii.eqb a c = false).
  { apply Ascii.eqb_neq. intros ->. lia. }
  rewrite E. reflexivity.
Qed.

(** An ASCII text has no white space outside ASCII. *)
Lemma plain_narrow (s : string) : plain s = true -> narrow s = true.
Proof.
  intros Hp. unfold narrow, wide_spaces, wide2, wide3. cbn [forallb].
  rewrite !(plain_no_high s _ _ Hp) by (cbn; lia). reflexivity.
Qed.

End Strip.

(* ===================================================================== *)
(** ** The Steam root *)
(* ===================================================================== *)

Section Root.
Import Registry.

Lemma first_root_some (reg : registry) (ts : list (hive * string * string))
    (r : string) :
  first_root reg ts = Some r ->
  exists root subkey value v,
    In (root, subkey, value) ts
    /\ reg root subkey value = Some (REG_str v)
    /\ r = Text.strip v /\ truthy r = true.
Proof.
  induction ts as [|[[root subkey] value] ts IH]; simpl; [discriminate|].
  destruct (reg root subkey value) as [[v|]|] eqn:E.
  - destruct (truthy (Text.strip v)) eqn:T.
    + intros H. inversion H. subst r.
      exists root, subkey, value, v. repeat split; auto.
    + intros H. destruct (IH H) as (a & b & c & w & Hin & Hw).
      exists a, b, c, w. split; [right; exact Hin | exact Hw].
  - intros H. destruct (IH H) as (a & b & c & w & Hin & Hw).
    exists a, b, c, w. split; [right; exact Hin | exact Hw].
  - intros H. destruct (IH H) as (a & b & c & w & Hin & Hw).
    exists a, b, c, w. split; [right; exact Hin | exact Hw].
Qed.

Lemma first_root_none (reg : registry) (ts : list (hive * string * string)) :
  first_root reg ts = None <->
  (forall root subkey value v,
     In (root, subkey, value) ts ->
     reg root subkey value = Some (REG_str v) ->
     Text.strip v = EmptyString).
Proof.
  induction ts as [|[[root subkey] value] ts IH]; simpl.
  - split; [intros _ ? ? ? ? [] | reflexivity].
  - destruct (reg root subkey value) as [[v|]|] eqn:E.
    + destruct (truthy (Text.strip v)) eqn:T.
      * split; [discriminate|]. intros H.
        specialize (H root subkey value v (or_introl eq_refl) E).
        rewrite H in T. discriminate.
      * rewrite IH. split.
        -- intros H a b c w [Hin|Hin] Hw; [|exact (H a b c w Hin Hw)].
           inversion Hin; subst a b c. rewrite E in Hw. inversion Hw. subst w.
           unfold truthy in T. apply negb_false_iff, String.eqb_eq in T.
           exact T.
        -- intros H a b c w Hin. apply H. right. exact Hin.
    + rewrite IH. split.
      * intros H a b c w [Hin|Hin] Hw; [|exact (H a b c w Hin Hw)].
        inversion Hin; subst a b c. rewrite E in Hw. discriminate.
      * intros H a b c w Hin. apply H. right. exact Hin.
    + rewrite IH. split.
      * intros H a b c w [Hin|Hin] Hw; [|exact (H a b c w Hin Hw)].
        inversion Hin; subst a b c. rewrite E in Hw. discriminate.
      * intros H a b c w Hin. apply H. right. exact Hin.
Qed.

(** X1.  In a registry whose string values of the four tries have no
    white space outside ASCII (so that [Text.strip] is what [str.strip]
    computes on them): the Steam root that [read_steam_root] returns is
    the stripped text of a string value of one of the four tries; it is
    not empty and has a space at neither end.  [read_steam_root] returns
    nothing exactly when no try holds a string that is not blank. *)
Theorem steam_root_is_stripped_value (reg : registry) :
  (forall root subkey value v,
     In (root, subkey, value) tries ->
     reg root subkey value = Some (REG_str v) -> Text.narrow v = true) ->
  (forall r, read_steam_root reg = Some r ->
     r <> EmptyString /\ trimmed r
     /\ exists root subkey value v,
          In (root, subkey, value) tries
          /\ reg root subkey value = Some (REG_str v)
          /\ r = Text.strip v)
  /\ (read_steam_root reg = None <->
      forall root subkey value v,
        In (root, subkey, value) tries ->
        reg root subkey value = Some (REG_str v) ->
        Text.strip v = EmptyString).
Proof.
  intros _. split; [|apply first_root_none].
  intros r H.
  destruct (first_root_some reg tries r H)
    as (root & subkey & value & v & Hin & Hv & -> & T).
  split; [|split].
  - intros E. rewrite E in T. discriminate.
  - apply strip_trimmed.
  - exists root, subkey, value, v. repeat split; assumption.
Qed.

Lemma steam_root_is_stripped_value_witness :
  trimmed "C:\Program Files (x86)\Steam".
Proof.
  apply (proj1 (steam_root_is_stripped_value
                  (fun h _ name =>
                     match h with
                     | HKEY_CURRENT_USER => None
                     | HKEY_LOCAL_MACHINE =>
                         Some (REG_str "  C:\Program Files (x86)\Steam  ")
                     end)
                  ltac:(intros [|] ? ? v _ H;
                        [discriminate H | inversion H; reflexivity]))
           "C:\Program Files (x86)\Steam").
  vm_compute. reflexivity.
Defined.

(** X2.  The tries of [read_steam_root] are in order of preference: a
    value that is missing, is no string or is blank is passed over, and
    the first string that is not blank decides (a string without white
    space outside ASCII, so that [Text.strip] is what [str.strip] computes
    on it); in particular a [SteamPath] of the current user that is not
    blank is the result whatever the other values hold. *)
Theorem steam_root_prefers_first (reg : registry)
    (before after : list (hive * string * string))
    (root : hive) (subkey value v : string) :
  tries = before ++ (root, subkey, value) :: after ->
  (forall a b c w, In (a, b, c) before ->
                   reg a b c = Some (REG_str w) ->
                   Text.strip w = EmptyString) ->
  reg root subkey value = Some (REG_str v) ->
  Text.narrow v = true ->
  Text.strip v <> EmptyString ->
  read_steam_root reg = Some (Text.strip v).
Proof.
  unfold read_steam_root. intros -> Hb Hv _ Hne.
  induction before as [|[[a b] c] before IH]; simpl.
  - rewrite Hv.
    assert (T : truthy (Text.strip v) = true).
    { unfold truthy. apply negb_true_iff, String.eqb_neq. exact Hne. }
    rewrite T. reflexivity.
  - assert (IH' : first_root reg (before ++ (root, subkey, value) :: after)
                  = Some (Text.strip v)).
    { apply IH. intros a' b' c' w Hin. apply Hb. right. exact Hin. }
    destruct (reg a b c) as [[w|]|] eqn:E; try exact IH'.
    rewrite (Hb a b c w (or_introl eq_refl) E). exact IH'.
Qed.

Lemma steam_root_prefers_first_witness :
  read_steam_root
    (fun h _ name =>
       match h with
       | HKEY_CURRENT_USER =>
           if String.eqb name "SteamPath" then Some (REG_str "   ")
           else Some (REG_str " D:\Steam ")
       | HKEY_LOCAL_MACHINE => Some (REG_str "E:\Steam")
       end)
  = Some "D:\Steam".
Proof.
  apply (steam_root_prefers_first _
           [(HKEY_CURRENT_USER, "Software\Valve\Steam", "SteamPath")]
           [(HKEY_LOCAL_MACHINE, "Software\WOW6432Node\Valve\Steam",
             "InstallPath");
            (HKEY_LOCAL_MACHINE, "Software\Valve\Steam", "InstallPath")]
           HKEY_CURRENT_USER "Software\Valve\Steam" "InstallPath"
           " D:\Steam ").
  - reflexivity.
  - intros a b c w [H|[]] Hw. inversion H; subst a b c.
    vm_compute in Hw. inversion Hw. reflexivity.
  - reflexivity.
  - reflexivity.
  - vm_compute. discriminate.
Defined.

End Root.

(* ===================================================================== *)
(** ** What a match tells about the line *)
(* ===================================================================== *)

Section ReFacts.
Import Re.

Lemma skip_skip (a b : nat) (s : string) :
  Tail.skip b (Tail.skip a s) = Tail.skip (a + b) s.
Proof.
  revert s. induction a as [|a IH]; intros s; [reflexivity|].
  destruct s as [|c s]; simpl.
  - destruct b; reflexivity.
  - apply IH.
Qed.

Lemma skip_S (n : nat) (s : string) (x : ascii) (t : string) :
  Tail.skip n s = String x t -> Tail.skip (S n) s = t.
Proof.
  intros H. replace (S n) with (n + 1) by lia.
  rewrite <- skip_skip, H. reflexivity.
Qed.

Lemma substring_take_skip (b n : nat) (s : string) :
  substring b n s = take n (Tail.skip b s).
Proof.
  revert s. induction b as [|b IH]; intros s.
  - simpl. revert s. induction n as [|n IHn]; intros [|c s]; simpl;
      try reflexivity. rewrite IHn. reflexivity.
  - destruct s as [|c s]; simpl; [destruct n; reflexivity | apply IH].
Qed.

Lemma take_nonempty (n : nat) (s : string) :
  1 <= n -> n <= String.length s -> take n s <> EmptyString.
Proof.
  destruct n as [|n]; [lia|]. destruct s as [|c s]; simpl; [lia|].
  discriminate.
Qed.

Lemma starts_with_skip_contains (w : string) (k : nat) (s : string) :
  Text.starts_with w (Tail.skip k s) = true -> Text.contains w s = true.
Proof.
  revert s. induction k as [|k IH]; intros s H.
  - simpl in H. destruct s; simpl; rewrite H; reflexivity.
  - destruct s as [|c s].
    + simpl in H. simpl. rewrite H. reflexivity.
    + simpl in H. simpl. rewrite (IH s H). apply orb_true_r.
Qed.

(** A repetition takes some characters of the class and hands over to the
    rest of the pattern. *)
Lemma star_inv (c : cclass) (k : nat -> string -> option mstate)
    (i : nat) (s : string) (m' : mstate) :
  star c k i s = Some m' ->
  exists n,
    n <= String.length s /\ all_in c (take n s) = true
    /\ k (i + n) (Tail.skip n s) = Some m'.
Proof.
  revert i. induction s as [|x s IH]; intros i; simpl.
  - intros H. exists 0. rewrite Nat.add_0_r. repeat split; auto.
  - destruct (in_class c x) eqn:Hx.
    + destruct (star c k (S i) s) as [r|] eqn:Hs.
      * intros H. inversion H. subst r.
        destruct (IH (S i) Hs) as (n & Hn & Ha & Hk).
        exists (S n). simpl. rewrite Hx, Ha.
        replace (i + S n) with (S i + n) by lia.
        repeat split; auto. lia.
      * intros H. exists 0. rewrite Nat.add_0_r.
        repeat split; auto. lia.
    + intros H. exists 0. rewrite Nat.add_0_r. repeat split; auto. lia.
Qed.

Lemma match_at_lit (w : string) (r : regex) (i : nat) (s : string)
    (m m' : mstate) :
  match_at (lit w ++ r) i s m = Some m' ->
  Text.starts_with w s = true
  /\ match_at r (i + String.length w) (Tail.skip (String.length w) s) m
     = Some m'.
Proof.
  revert i s. induction w as [|a w IH]; intros i s; simpl.
  - intros H. rewrite Nat.add_0_r. split; [reflexivity | exact H].
  - destruct s as [|x s]; [discriminate|].
    destruct (Ascii.eqb x a) eqn:E; [|discriminate].
    intros H. destruct (IH (S i) s H) as [Hs Hm].
    apply Ascii.eqb_eq in E. subst x. rewrite Ascii.eqb_refl, Hs.
    replace (i + S (String.length w)) with (S i + String.length w) by lia.
    split; [reflexivity | exact Hm].
Qed.

Lemma match_at_many (c : cclass) (r : regex) (i : nat) (s : string)
    (m m' : mstate) :
  match_at (many c :: r) i s m = Some m' ->
  exists n,
    n <= String.length s /\ all_in c (take n s) = true
    /\ match_at r (i + n) (Tail.skip n s) m = Some m'.
Proof. simpl. intros H. exact (star_inv c _ i s m' H). Qed.

Lemma match_at_some (c : cclass) (r : regex) (i : nat) (s : string)
    (m m' : mstate) :
  match_at (some c :: r) i s m = Some m' ->
  exists n,
    1 <= n /\ n <= String.length s /\ all_in c (take n s) = true
    /\ match_at r (i + n) (Tail.skip n s) m = Some m'.
Proof.
  simpl. destruct s as [|x s]; [discriminate|].
  destruct (in_class c x) eqn:Hx; [|discriminate].
  intros H. destruct (star_inv c _ (S i) s m' H) as (n & Hn & Ha & Hk).
  exists (S n). simpl. rewrite Hx, Ha.
  replace (i + S n) with (S i + n) by lia.
  repeat split; auto; lia.
Qed.

(** The rest of a pattern adds its groups before the groups closed so
    far. *)
Lemma match_at_spans (r : regex) (i : nat) (s : string) (m m' : mstate) :
  match_at r i s m = Some m' ->
  exists extra, spans m' = extra ++ spans m.
Proof.
  revert i s m. induction r as [|t r IH]; intros i s m.
  - simpl. intros H. inversion H. exists []. reflexivity.
  - destruct t as [| | |c q].
    + simpl. destruct (i =? 0); [apply IH | discriminate].
    + simpl. intros H. destruct (IH _ _ _ H) as [ex He].
      exists ex. exact He.
    + simpl. destruct (opened m) as [|b o]; [discriminate|].
      intros H. destruct (IH _ _ _ H) as [ex He].
      exists (ex ++ [(b, i)]). rewrite He, <- app_assoc. reflexivity.
    + destruct q.
      * simpl. destruct s as [|x s]; [discriminate|].
        destruct (in_class c x); [apply IH | discriminate].
      * intros H. destruct (match_at_many _ _ _ _ _ _ H) as (n & _ & _ & Hk).
        exact (IH _ _ _ Hk).
      * intros H.
        destruct (match_at_some _ _ _ _ _ _ H) as (n & _ & _ & _ & Hk).
        exact (IH _ _ _ Hk).
Qed.

(** A search that succeeds has a match at some offset of the line. *)
Lemma search_from_inv (r : regex) (i : nat) (s : string) (m : mstate) :
  search_from r i s = Some m ->
  exists k,
    k <= String.length s
    /\ match_at r (i + k) (Tail.skip k s) m_init = Some m.
Proof.
  revert i. induction s as [|x s IH]; intros i; simpl.
  - destruct (match_at r i EmptyString m_init) eqn:E; [|discriminate].
    intros H. inversion H. subst. exists 0. rewrite Nat.add_0_r.
    split; [lia | exact E].
  - destruct (match_at r i (String x s) m_init) eqn:E.
    + intros H. inversion H. subst. exists 0. rewrite Nat.add_0_r.
      split; [lia | exact E].
    + intros H. destruct (IH (S i) H) as (k & Hk & Hm).
      exists (S k). simpl.
      replace (i + S k) with (S i + k) by lia. split; [lia | exact Hm].
Qed.

Lemma search_inv (r : regex) (line : string) (g : list string) :
  search r line = Some g ->
  exists k m,
    k <= String.length line
    /\ match_at r k (Tail.skip k line) m_init = Some m
    /\ g = map (fun be => Text.slice (fst be) (snd be) line) (rev (spans m)).
Proof.
  unfold search. destruct (search_from r 0 line) as [m|] eqn:E;
    [|discriminate].
  intros H. inversion H.
  destruct (search_from_inv r 0 line m E) as (k & Hk & Hm).
  exists k, m. repeat split; assumption.
Qed.

End ReFacts.

Section PatternFacts.
Import Re Patterns.

Lemma match_at_bol (r : regex) (i : nat) (s : string) (m : mstate) :
  match_at (t_bol :: r) i s m
  = if i =? 0 then match_at r i s m else None.
Proof. reflexivity. Qed.

Lemma match_at_open (r : regex) (i : nat) (s : string) (m : mstate) :
  match_at (t_open :: r) i s m
  = match_at r i s {| opened := i :: opened m; spans := spans m |}.
Proof. reflexivity. Qed.

Lemma match_at_close (r : regex) (i : nat) (s : string) (m : mstate)
    (b : nat) (o : list nat) :
  opened m = b :: o ->
  match_at (t_close :: r) i s m
  = match_at r i s {| opened := o; spans := (b, i) :: spans m |}.
Proof. intros H. simpl. rewrite H. reflexivity. Qed.

Lemma all_in_digits (s : string) : all_in c_d s = all_digits s.
Proof. induction s as [|c s IH]; simpl; [|rewrite IH]; reflexivity. Qed.

(** A match of a pattern that begins with [app_head]: the line has
    [AppID], and the first group is a run of digits. *)
Lemma app_head_inv (r : regex) (line : string) (k : nat) (m' : mstate) :
  match_at (app_head ++ r) k (Tail.skip k line) m_init = Some m' ->
  Text.contains "AppID" line = true
  /\ exists b n j,
       1 <= n /\ n <= String.length (Tail.skip b line)
       /\ all_digits (take n (Tail.skip b line)) = true
       /\ match_at r j (Tail.skip j line)
            {| opened := []; spans := [(b, b + n)] |} = Some m'.
Proof.
  unfold app_head. rewrite <- app_assoc. intros H.
  apply match_at_lit in H. destruct H as [Hs H].
  split; [exact (starts_with_skip_contains _ _ _ Hs)|].
  rewrite skip_skip in H. cbn [app] in H.
  apply match_at_some in H. destruct H as (n1 & _ & _ & _ & H).
  rewrite skip_skip, match_at_open in H.
  apply match_at_some in H. destruct H as (n & Hn1 & Hn2 & Hd & H).
  rewrite skip_skip in H.
  rewrite (match_at_close _ _ _ _ (k + String.length "AppID" + n1) []) in H
    by reflexivity.
  cbn [spans m_init] in H.
  apply match_at_some in H. destruct H as (n2 & _ & _ & _ & H).
  rewrite skip_skip in H.
  rewrite all_in_digits in Hd.
  eexists _, n, _. repeat split; try eassumption.
Qed.

Lemma group1_of_spans (line : string) (extra : list (nat * nat))
    (b e : nat) :
  group (map (fun be => Text.slice (fst be) (snd be) line)
           (rev (extra ++ [(b, e)]))) 1
  = Text.slice b e line.
Proof. rewrite rev_app_distr. reflexivity. Qed.

Lemma subject_group (r : regex) (line : string) (g : list string) :
  search (app_head ++ r) line = Some g ->
  Text.contains "AppID" line = true /\ digits_key (group g 1).
Proof.
  intros H. destruct (search_inv _ _ _ H) as (k & m & _ & Hm & ->).
  destruct (app_head_inv r line k m Hm)
    as (Hc & b & n & j & Hn1 & Hn2 & Hd & Hr).
  split; [exact Hc|].
  destruct (match_at_spans _ _ _ _ _ Hr) as [extra He].
  cbn [spans] in He. rewrite He, group1_of_spans.
  unfold Text.slice. replace (b + n - b) with n by lia.
  rewrite substring_take_skip.
  split; [apply take_nonempty; assumption | exact Hd].
Qed.

(** A match of a pattern that begins with [stamp]: the line begins with
    a bracket. *)
Lemma stamp_inv (r : regex) (line : string) (g : list string) :
  search (stamp ++ r) line = Some g ->
  Text.starts_with "[" line = true.
Proof.
  intros H. destruct (search_inv _ _ _ H) as (k & m & _ & Hm & _).
  unfold stamp in Hm. rewrite <- app_assoc in Hm.
  change ([t_bol] ++ ?x) with (t_bol :: x) in Hm.
  rewrite match_at_bol in Hm.
  destruct (k =? 0) eqn:E; [|discriminate].
  apply Nat.eqb_eq in E. subst k. simpl Tail.skip in Hm.
  rewrite <- app_assoc in Hm.
  apply match_at_lit in Hm. exact (proj1 Hm).
Qed.

(** What the classification of a line tells about the line. *)
Lemma classify_subject (line : string) (e : event) (a : string) :
  classify line = Event e -> subject_of e = Some a ->
  Text.contains "AppID" line = true /\ digits_key a.
Proof.
  unfold classify, metric.
  destruct (search upd_changed_re line) as [g|] eqn:E1.
  { intros H Hs. inversion H. subst e. inversion Hs. subst a.
    exact (subject_group _ _ _ E1). }
  destruct (search upd_started_re line) as [g|] eqn:E2.
  { intros H Hs. inversion H. subst e. inversion Hs. subst a.
    exact (subject_group _ _ _ E2). }
  destruct (search upd_canceled_re line) as [g|] eqn:E3.
  { intros H Hs. inversion H. subst e. inversion Hs. subst a.
    exact (subject_group _ _ _ E3). }
  destruct (search finished_re line) as [g|] eqn:E4.
  { intros H Hs. inversion H. subst e. inversion Hs. subst a.
    exact (subject_group _ _ _ E4). }
  destruct (search state_changed_re line) as [g|] eqn:E5.
  { intros H Hs. inversion H. subst e. inversion Hs. subst a.
    exact (subject_group _ _ _ E5). }
  destruct (search rate_re line);
    [destruct (of_str _); intros H Hs; inversion H; subst e; discriminate Hs|].
  destruct (search inc_re line);
    [destruct (of_str _); intros H Hs; inversion H; subst e; discriminate Hs|].
  destruct (search stats_re line);
    [destruct (of_str _); intros H Hs; inversion H; subst e; discriminate Hs|].
  discriminate.
Qed.

Lemma classify_no_appid (line : string) :
  Text.contains "AppID" line = false ->
  match classify line with
  | Event e => is_metric e = true
  | _ => True
  end.
Proof.
  intros Hn. destruct (classify line) as [|e|] eqn:Hc; try exact I.
  destruct (subject_of e) as [a|] eqn:Hs.
  - destruct (classify_subject line e a Hc Hs) as [H _]. congruence.
  - destruct e; try discriminate Hs; reflexivity.
Qed.

Lemma classify_no_bracket (line : string) :
  Text.starts_with "[" line = false ->
  match classify line with
  | Event e => is_metric e = false
  | NoEvent => True
  | BadNumber => False
  end.
Proof.
  intros Hn. unfold classify, metric.
  destruct (search upd_changed_re line); [reflexivity|].
  destruct (search upd_started_re line); [reflexivity|].
  destruct (search upd_canceled_re line); [reflexivity|].
  destruct (search finished_re line); [reflexivity|].
  destruct (search state_changed_re line); [reflexivity|].
  destruct (search rate_re line) as [g|] eqn:E1.
  { pose proof (stamp_inv _ _ _ E1). congruence. }
  destruct (search inc_re line) as [g|] eqn:E2.
  { pose proof (stamp_inv _ _ _ E2). congruence. }
  destruct (search stats_re line) as [g|] eqn:E3.
  { pose proof (stamp_inv _ _ _ E3). congruence. }
  exact I.
Qed.

End PatternFacts.

(* ===================================================================== *)
(** ** Lines that are not for the tracker *)
(* ===================================================================== *)

Lemma subject_event_parts (now : float) (e : event) (st : State) :
  is_metric e = true ->
  app_status (apply_event now e st) = app_status st
  /\ seen (apply_event now e st) = seen st
  /\ active_app (apply_event now e st) = active_app st
  /\ active_status (apply_event now e st) = active_status st.
Proof.
  destruct e; cbn; try discriminate; intros _; repeat split.
Qed.

(** X3.  A line without [AppID] that does not begin with a bracket
    leaves the state as it is.  A line that does not begin with a bracket
    never makes [parse_line] raise, and a line without [AppID] never
    changes the two dictionaries or the active subject. *)
Theorem unmarked_lines_are_ignored (now : float) (line : string)
    (st : State) :
  (Text.contains "AppID" line = false ->
   Text.starts_with "[" line = false ->
   parse_line now line st = Some st)
  /\ (Text.starts_with "[" line = false -> parse_line now line st <> None)
  /\ (Text.contains "AppID" line = false ->
      forall st', parse_line now line st = Some st' ->
        app_status st' = app_status st /\ seen st' = seen st
        /\ active_app st' = active_app st
        /\ active_status st' = active_status st).
Proof.
  rewrite parse_line_classify. split; [|split].
  - intros Ha Hb.
    pose proof (classify_no_appid line Ha) as H1.
    pose proof (classify_no_bracket line Hb) as H2.
    destruct (classify line) as [|e|]; [reflexivity | congruence | destruct H2].
  - intros Hb. pose proof (classify_no_bracket line Hb) as H2.
    destruct (classify line); [discriminate | discriminate | destruct H2].
  - intros Ha st' H. pose proof (classify_no_appid line Ha) as H1.
    destruct (classify line) as [|e|]; inversion H; subst st'.
    + repeat split.
    + apply subject_event_parts. exact H1.
Qed.

Lemma unmarked_lines_are_ignored_witness :
  parse_line (of_nat 1000)
    "Loaded 3 apps from install folder, update rate: 1.2.3 Mbps"
    State_init = Some State_init.
Proof.
  apply (proj1 (unmarked_lines_are_ignored (of_nat 1000)
                  "Loaded 3 apps from install folder, update rate: 1.2.3 Mbps"
                  State_init)); reflexivity.
Defined.

(* ===================================================================== *)
(** ** The subjects of a state *)
(* ===================================================================== *)

Lemma keys_set_inv {V : Type} (k a : string) (v : V) (d : Dict.dict V) :
  In k (Dict.keys (Dict.set a v d)) -> k = a \/ In k (Dict.keys d).
Proof.
  induction d as [|[k0 v0] d IH]; simpl.
  - intros [H|[]]. left. symmetry. exact H.
  - destruct (String.eqb k0 a) eqn:E; simpl.
    + intros [H|H]; [left; symmetry; exact H | right; right; exact H].
    + intros [H|H]; [right; left; exact H|].
      destruct (IH H) as [G|G]; [left; exact G | right; right; exact G].
Qed.

Lemma writes_keys_inv {V : Type} (k : string) (ws : list (string * V))
    (d : Dict.dict V) :
  In k (Dict.keys (writes ws d)) -> In k (map fst ws) \/ In k (Dict.keys d).
Proof.
  revert d. induction ws as [|[a v] ws IH]; intros d; simpl.
  - intros H. right. exact H.
  - intros H. destruct (IH _ H) as [G|G]; [left; right; exact G|].
    destruct (keys_set_inv _ _ _ _ G) as [E|E];
      [left; left; symmetry; exact E | right; exact E].
Qed.

Lemma status_writes_subject (e : event) (k : string) :
  In k (map fst (status_writes e)) -> subject_of e = Some k.
Proof.
  destruct e as [a raw|a|a|a|a raw|v ts|v ts|v ts]; cbn;
    try (intros [H|[]]; subst; reflexivity); try (intros []).
  - destruct (String.eqb _ "none"); cbn;
      intros H; repeat (destruct H as [H|H]; [subst; reflexivity|]);
      destruct H.
  - destruct (Text.contains "suspended" _); cbn;
      [intros [H|[]]; subst; reflexivity | intros []].
Qed.

Lemma active_app_event (now : float) (e : event) (st : State) (a : string) :
  active_app (apply_event now e st) = Some a ->
  active_app st = Some a \/ subject_of e = Some a.
Proof.
  assert (E : active_app (apply_event now e st)
              = fst (act_step e (active st)))
    by (rewrite <- (active_event now e st); reflexivity).
  rewrite E. clear E.
  destruct e as [x raw|x|x|x|x raw|v ts|v ts|v ts]; cbn [act_step subject_of];
    try (intros H; left; exact H).
  - destruct (any_active_keyword raw); cbn; intros H;
      [right; exact H | left; exact H].
  - cbn. intros H. right. exact H.
  - destruct (names _ x); cbn; intros H; left; exact H.
  - destruct (names _ x); cbn; intros H; [discriminate | left; exact H].
  - destruct (Text.contains "suspended" _); [|intros H; left; exact H].
    destruct (names _ x); cbn; intros H; left; exact H.
Qed.

Lemma apply_event_keyed (now : float) (e : event) (st : State) :
  (forall a, subject_of e = Some a -> digits_key a) ->
  keyed_by_digits st -> keyed_by_digits (apply_event now e st).
Proof.
  intros He [Hk Ha]. split.
  - intros k. rewrite app_status_event. intros H.
    destruct (writes_keys_inv _ _ _ H) as [G|G]; [|exact (Hk k G)].
    apply He, status_writes_subject, G.
  - intros a H. destruct (active_app_event _ _ _ _ H) as [G|G];
      [exact (Ha a G) | exact (He a G)].
Qed.

Lemma reachable_keyed (st : State) : reachable st -> keyed_by_digits st.
Proof.
  induction 1 as [|now line st st' _ IH Hp].
  - split; [intros k [] | intros a; discriminate].
  - destruct (parse_line_inv _ _ _ _ Hp) as [[_ ->]|(e & He & ->)];
      [exact IH|].
    apply apply_event_keyed; [|exact IH].
    intros a Hs. exact (proj2 (classify_subject line e a He Hs)).
Qed.

Lemma digits_key_truthy (a : string) : digits_key a -> truthy a = true.
Proof.
  intros [H _]. unfold truthy. apply negb_true_iff, String.eqb_neq. exact H.
Qed.

Lemma plain_reachable_reachable (st : State) :
  plain_reachable st -> reachable st.
Proof.
  induction 1 as [|now line st st' _ IH _ Hp]; [exact reach_init|].
  exact (reach_step now line st st' IH Hp).
Qed.

(** X4.  In every state reached from [State()] the subjects of
    [app_status] and of [seen] and the active subject are not empty, for
    the patterns capture one character or more.  So the truth tests on the
    subject (lines 129 and 286) never take a set subject for none:
    [pick_active] returns the active subject whenever one is set.  In the
    states reached on ASCII lines the subjects are keys of one or more of
    the digits 0 to 9, as [\d] captures them there. *)
Theorem subjects_are_digit_keys (st : State) :
  (reachable st ->
   (forall k, In k (Dict.keys (app_status st)) -> k <> EmptyString)
   /\ (forall k, In k (Dict.keys (seen st)) -> k <> EmptyString)
   /\ (forall a, active_app st = Some a ->
         a <> EmptyString /\ pick_active st = Some a
         /\ present (pick_active st) = Some a))
  /\ (plain_reachable st ->
      (forall k, In k (Dict.keys (app_status st)) -> digits_key k)
      /\ (forall k, In k (Dict.keys (seen st)) -> digits_key k)
      /\ (forall a, active_app st = Some a -> digits_key a)).
Proof.
  assert (G : reachable st ->
              (forall k, In k (Dict.keys (app_status st)) -> digits_key k)
              /\ (forall k, In k (Dict.keys (seen st)) -> digits_key k)
              /\ (forall a, active_app st = Some a -> digits_key a)).
  { intros Hr. destruct (reachable_keyed st Hr) as [Hk Ha].
    pose proof (reachable_same_subjects st Hr) as Hs.
    unfold same_subjects in Hs.
    split; [exact Hk | split; [|exact Ha]].
    intros k. rewrite <- Hs. apply Hk. }
  split.
  - intros Hr. destruct (G Hr) as (Hk & Hs & Ha).
    split; [intros k Hin; exact (proj1 (Hk k Hin))|].
    split; [intros k Hin; exact (proj1 (Hs k Hin))|].
    intros a H. pose proof (digits_key_truthy a (Ha a H)) as T.
    split; [exact (proj1 (Ha a H))|].
    unfold pick_active. rewrite H, T. cbn. rewrite T.
    split; reflexivity.
  - intros Hr. exact (G (plain_reachable_reachable st Hr)).
Qed.

Lemma subjects_are_digit_keys_witness :
  exists st,
    parse_line (of_nat 1000)
      "[2024-01-01 10:00:00] AppID 0730 update started: x"
      State_init = Some st
    /\ pick_active st = Some "0730"
    /\ digits_key "0730".
Proof.
  eexists. split; [vm_compute; reflexivity|].
  split.
  - apply (proj2 (proj2 (proj1 (subjects_are_digit_keys _)
             (reach_step (of_nat 1000)
                "[2024-01-01 10:00:00] AppID 0730 update started: x"
                State_init _ reach_init ltac:(vm_compute; reflexivity))))).
    reflexivity.
  - apply (proj2 (proj2 (proj2 (subjects_are_digit_keys _)
             (plain_step (of_nat 1000)
                "[2024-01-01 10:00:00] AppID 0730 update started: x"
                State_init _ plain_init eq_refl
                ltac:(vm_compute; reflexivity))))).
    reflexivity.
Defined.

Lemma keys_set_app {V : Type} (k : string) (v : V) (d : Dict.dict V) :
  exists new,
    Dict.keys (Dict.set k v d) = Dict.keys d ++ new
    /\ (new = [] \/ (new = [k] /\ ~ In k (Dict.keys d))).
Proof.
  induction d as [|[k0 v0] d IH]; simpl.
  - exists [k]. split; [reflexivity|]. right. split; [reflexivity | intros []].
  - destruct (String.eqb k0 k) eqn:E; simpl.
    + apply String.eqb_eq in E. subst k0. exists [].
      rewrite app_nil_r. split; [reflexivity | left; reflexivity].
    + destruct IH as (new & Hk & Hn). exists new. rewrite Hk.
      split; [reflexivity|].
      destruct Hn as [Hn|[Hn Hin]]; [left; exact Hn | right].
      split; [exact Hn|]. intros [G|G]; [|exact (Hin G)].
      subst k0. rewrite String.eqb_refl in E. discriminate.
Qed.

Lemma writes_keys_app {V : Type} (ws : list (string * V)) (d : Dict.dict V) :
  exists new,
    Dict.keys (writes ws d) = Dict.keys d ++ new
    /\ (NoDup (Dict.keys d) -> NoDup (Dict.keys (writes ws d))).
Proof.
  revert d. induction ws as [|[k v] ws IH]; intros d.
  - exists []. rewrite app_nil_r. split; [reflexivity | auto].
  - change (writes ((k, v) :: ws) d) with (writes ws (Dict.set k v d)).
    destruct (IH (Dict.set k v d)) as (n2 & H2 & N2).
    destruct (keys_set_app k v d) as (n1 & H1 & Hn).
    exists (n1 ++ n2). split; [rewrite H2, H1, app_assoc; reflexivity|].
    intros Hd. apply N2. rewrite H1.
    destruct Hn as [->|[-> Hin]]; [rewrite app_nil_r; exact Hd|].
    apply NoDup_app; [exact Hd | constructor; [intros [] | constructor] |].
    intros x Hx [E|[]]. subst x. exact (Hin Hx).
Qed.

(** X5.  Subjects are only added: a run of [parse_line] leaves the
    subjects that [app_status] and [seen] had in their places and puts
    new ones after them, so no subject is ever removed; and in every
    state reached from [State()] a subject has one entry in each
    dictionary. *)
Theorem subjects_only_added :
  (forall now lines st st',
     parse_lines now lines st = Some st' ->
     (exists new, Dict.keys (app_status st')
                  = Dict.keys (app_status st) ++ new)
     /\ (exists new, Dict.keys (seen st') = Dict.keys (seen st) ++ new))
  /\ (forall st, reachable st ->
        NoDup (Dict.keys (app_status st)) /\ NoDup (Dict.keys (seen st))).
Proof.
  split.
  - intros now lines st st' H. rewrite parse_lines_events in H.
    destruct (events_of lines) as [es|]; [|discriminate].
    inversion H. rewrite app_status_events, seen_events.
    split.
    + destruct (writes_keys_app (flat_map status_writes es) (app_status st))
        as (new & E & _). exists new. exact E.
    + destruct (writes_keys_app (flat_map (seen_writes now) es) (seen st))
        as (new & E & _). exists new. exact E.
  - induction 1 as [|now line st st' _ IH Hp]; [split; constructor|].
    destruct (parse_line_inv _ _ _ _ Hp) as [[_ ->]|(e & _ & ->)];
      [exact IH|].
    rewrite app_status_event, seen_event. destruct IH as [I1 I2]. split.
    +
      destruct (writes_keys_app (status_writes e) (app_status st))
        as (new & _ & N). exact (N I1).
    + destruct (writes_keys_app (seen_writes now e) (seen st))
        as (new & _ & N). exact (N I2).
Qed.

Lemma subjects_only_added_witness :
  exists st' new,
    parse_lines (of_nat 1000)
      ["[2024-01-01 10:00:00] AppID 20 update started: x";
       "[2024-01-01 10:00:01] AppID 10 finished update"]
      (set_app_status "10" PAUSED State_init) = Some st'
    /\ Dict.keys (app_status st') = ["10"] ++ new.
Proof.
  eexists.
  destruct (proj1 (proj1 subjects_only_added (of_nat 1000)
              ["[2024-01-01 10:00:00] AppID 20 update started: x";
               "[2024-01-01 10:00:01] AppID 10 finished update"]
              (set_app_status "10" PAUSED State_init) _
              ltac:(vm_compute; reflexivity)))
    as [new E].
  exists new. split; [reflexivity | exact E].
Defined.

Lemma seen_writes_subject (now : float) (e : event) (k : string) :
  In k (map fst (seen_writes now e)) -> subject_of e = Some k.
Proof.
  destruct e as [a raw|a|a|a|a raw|v ts|v ts|v ts]; cbn;
    try (intros [H|[]]; subst; reflexivity); try (intros []).
  destruct (Text.contains "suspended" _); cbn;
    [intros [H|[]]; subst; reflexivity | intros []].
Qed.

Lemma sample_event_subject (now : float) (e : event) (st : State) :
  is_metric e = false ->
  (forall a, e = SubjectFinished a -> active_is st a = false) ->
  sample (apply_event now e st) = sample st.
Proof.
  destruct e as [a raw|a|a|a|a raw|v ts|v ts|v ts];
    cbn [apply_event]; try discriminate; intros _ Hf.
  - destruct (any_active_keyword raw),
             (String.eqb (Text.lower (Text.strip raw)) "none"); reflexivity.
  - reflexivity.
  - destruct (active_is _ a); reflexivity.
  - rewrite active_is_set_maps, (Hf a eq_refl). reflexivity.
  - destruct (Text.contains "suspended" (Text.lower raw)); [|reflexivity].
    destruct (active_is _ a); reflexivity.
Qed.

(** X6.  An ASCII line changes nothing it is not about: the entries of
    every subject other than the subject of the line stay as they are in
    both dictionaries, and the metric sample changes only by a metric line
    or by a "finished update" line for the active subject.  (On ASCII
    text the patterns match as [Re.search] does, so that [classify] tells
    the branch of [parse_line] and the subject it captures.) *)
Theorem line_changes_only_its_subject (now : float) (line : string)
    (st st' : State) :
  Text.plain line = true ->
  parse_line now line st = Some st' ->
  (forall k,
     (forall e, classify line = Event e -> subject_of e <> Some k) ->
     Dict.get k (app_status st') = Dict.get k (app_status st)
     /\ Dict.get k (seen st') = Dict.get k (seen st))
  /\ (metric_line line = false ->
      (forall a, classify line = Event (SubjectFinished a) ->
                 active_app st <> Some a) ->
      sample st' = sample st).
Proof.
  intros _ Hp.
  destruct (parse_line_inv _ _ _ _ Hp) as [[Hc ->]|(e & Hc & ->)].
  - split; [intros k _; split; reflexivity | reflexivity].
  - split.
    + intros k Hk. specialize (Hk e Hc).
      rewrite app_status_event, seen_event. split.
      * apply writes_get_untouched. intros H.
        exact (Hk (status_writes_subject e k H)).
      * apply writes_get_untouched. intros H.
        exact (Hk (seen_writes_subject now e k H)).
    + unfold metric_line. rewrite Hc. intros Hm Hf.
      apply sample_event_subject; [exact Hm|].
      intros a ->. apply active_is_false. apply Hf. reflexivity.
Qed.

Lemma line_changes_only_its_subject_witness :
  exists st',
    parse_line (of_nat 1000) "[2024-01-01 10:00:01] AppID 10 finished update"
      (set_app_status "20" PAUSED State_init) = Some st'
    /\ Dict.get "20" (app_status st') = Some PAUSED.
Proof.
  eexists. split; [vm_compute; reflexivity|].
  apply (proj1 (line_changes_only_its_subject (of_nat 1000)
                  "[2024-01-01 10:00:01] AppID 10 finished update"
                  (set_app_status "20" PAUSED State_init) _
                  eq_refl ltac:(vm_compute; reflexivity)) "20").
  intros e He. vm_compute in He. inversion He. discriminate.
Defined.

(* ===================================================================== *)
(** ** The same line twice *)
(* ===================================================================== *)

Lemma sample_event_twice (now : float) (e : event) (st : State) :
  sample (apply_event now e (apply_event now e st))
  = sample (apply_event now e st).
Proof.
  destruct (is_metric e) eqn:Hm.
  - destruct e; try discriminate Hm; reflexivity.
  - apply sample_event_subject; [exact Hm|].
    intros a ->. cbn [apply_event]. rewrite active_is_set_maps.
    destruct (active_is st a) eqn:Ha; [reflexivity | exact Ha].
Qed.

Lemma apply_event_twice (now : float) (e : event) (st : State) :
  apply_event now e (apply_event now e st) = apply_event now e st.
Proof.
  apply State_ext.
  - rewrite !app_status_event. apply writes_idem.
  - rewrite !seen_event. apply writes_idem.
  - rewrite !active_event. exact (act_steps_idem [e] (active st)).
  - apply sample_event_twice.
Qed.

(** X7.  Processing the same line a second time at the same clock
    reading changes nothing more: from any state, the state after the
    line twice is the state after the line once. *)
Theorem same_line_twice (now : float) (line : string) (st st1 : State) :
  parse_line now line st = Some st1 ->
  parse_line now line st1 = Some st1.
Proof.
  intros Hp.
  destruct (parse_line_inv _ _ _ _ Hp) as [[Hc ->]|(e & Hc & ->)].
  - exact Hp.
  - rewrite (parse_line_event now line _ e Hc), apply_event_twice.
    reflexivity.
Qed.

Lemma same_line_twice_witness :
  exists st1,
    parse_line (of_nat 1000) "[2024-01-01 10:05:01] AppID 10 finished update"
      (_set_speed (of_nat 900) (set_active_app (Some "10") State_init)
         (of_nat 12) "2024-01-01 10:00:01" "rate") = Some st1
    /\ parse_line (of_nat 1000)
         "[2024-01-01 10:05:01] AppID 10 finished update" st1 = Some st1.
Proof.
  eexists. split; [vm_compute; reflexivity|].
  apply (same_line_twice (of_nat 1000)
           "[2024-01-01 10:05:01] AppID 10 finished update"
           (_set_speed (of_nat 900) (set_active_app (Some "10") State_init)
              (of_nat 12) "2024-01-01 10:00:01" "rate")).
  vm_compute. reflexivity.
Defined.

(* ===================================================================== *)
(** ** Status labels *)
(* ===================================================================== *)

Section Labels.
Import Text.

Lemma lower_char_idem (c : ascii) : lower_char (lower_char c) = lower_char c.
Proof. destruct c as [[] [] [] [] [] [] [] []]; reflexivity. Qed.

Lemma lower_idem (s : string) : lower (lower s) = lower s.
Proof.
  induction s as [|c s IH]; simpl; [|rewrite lower_char_idem, IH];
    reflexivity.
Qed.




End Labels.





(** X9.  [nice_status] looks at the text without regard to case, gives
    the paused label exactly when the text has "suspended" (whatever else
    it has), gives the idle label exactly when the text has none of the
    seven keywords, and never gives the done label or an empty label. *)
Theorem nice_status_cases (raw : string) :
  nice_status (Text.lower raw) = nice_status raw
  /\ (nice_status raw = PAUSED
      <-> Text.contains "suspended" (Text.lower raw) = true)
  /\ (nice_status raw = IDLE
      <-> Text.contains "suspended" (Text.lower raw) = false
          /\ any_active_keyword raw = false)
  /\ nice_status raw <> DONE
  /\ nice_status raw <> EmptyString.
Proof.
  split; [unfold nice_status; rewrite lower_idem; reflexivity|].
  unfold any_active_keyword, active_keywords. cbn [existsb].
  unfold nice_status.
  destruct (Text.contains "suspended" (Text.lower raw));
    [repeat split; try discriminate; try reflexivity;
     intros [H _]; discriminate H|].
  destruct (Text.contains "downloading" (Text.lower raw));
    [repeat split; try discriminate; intros [_ H]; discriminate H|].
  destruct (Text.contains "staging" (Text.lower raw));
    [repeat split; try discriminate; intros [_ H]; discriminate H|].
  destruct (Text.contains "committing" (Text.lower raw));
    [repeat split; try discriminate; intros [_ H]; discriminate H|].
  destruct (Text.contains "verifying" (Text.lower raw));
    [repeat split; try discriminate; intros [_ H]; discriminate H|].
  destruct (Text.contains "preallocating" (Text.lower raw)),
           (Text.contains "reconfiguring" (Text.lower raw));
    repeat split; try discriminate; try reflexivity;
    intros [_ H]; discriminate H.
Qed.

Lemma nice_status_cases_witness :
  nice_status "Running,Update Suspended,Downloading," = PAUSED.
Proof.
  apply (proj2 (proj1 (proj2
           (nice_status_cases "Running,Update Suspended,Downloading,")))).
  reflexivity.
Defined.

(* ===================================================================== *)
(** ** The subject that [pick_active] infers *)
(* ===================================================================== *)

Lemma ltb_irrefl (x : float) : ltb x x = false.
Proof.
  unfold ltb, SFltb, SFcompare. destruct x as [s|s| |s m e]; try reflexivity.
  - destruct s; reflexivity.
  - change (Pos.compare_cont Eq m m) with (Pos.compare m m).
    destruct s; rewrite Z.compare_refl, Pos.compare_refl; reflexivity.
Qed.

Lemma ltb_trans (x y z : float) :
  ltb x y = true -> ltb y z = true -> ltb x z = true.
Proof.
  unfold ltb, SFltb, SFcompare.
  destruct x as [sx|sx| |sx mx ex], y as [sy|sy| |sy my ey],
           z as [sz|sz| |sz mz ez];
    try discriminate; try reflexivity;
    try (destruct sx; try discriminate; try reflexivity;
         destruct sy; try discriminate; try reflexivity;
         destruct sz; try discriminate; reflexivity).
  all: destruct sx, sy, sz; try discriminate; try reflexivity.
  all: change (Pos.compare_cont Eq mx my) with (Pos.compare mx my);
    change (Pos.compare_cont Eq my mz) with (Pos.compare my mz);
    change (Pos.compare_cont Eq mx mz) with (Pos.compare mx mz);
    destruct (Z.compare_spec ex ey), (Z.compare_spec ey ez),
             (Z.compare_spec ex ez);
    try discriminate; try reflexivity; try lia;
    destruct (Pos.compare_spec mx my), (Pos.compare_spec my mz),
             (Pos.compare_spec mx mz);
    simpl; try discriminate; try reflexivity; try lia.
Qed.

Lemma pick_step_eq (st : State) (best : option (float * string))
    (k : string) (t : float) :
  pick_step st best (k, t) =
  if in_progress (status_of st k) then
    match best with
    | None => Some (t, k)
    | Some (bts, _) => if ltb bts t then Some (t, k) else best
    end
  else best.
Proof. reflexivity. Qed.

(** The loop keeps a time that no time met so far exceeds. *)
Lemma pick_fold_latest (st : State) (items : list (string * float))
    (best : option (float * string)) (met : list float)
    (t : float) (a : string) :
  (best = None -> met = []) ->
  (forall bt b, best = Some (bt, b) -> forall x, In x met -> ltb bt x = false) ->
  fold_left (pick_step st) items best = Some (t, a) ->
  (forall x, In x met -> ltb t x = false)
  /\ (forall k t', In (k, t') items ->
                   in_progress (status_of st k) = true -> ltb t t' = false).
Proof.
  revert best met. induction items as [|[k0 t0] items IH];
    intros best met Hn Hb Hf.
  - simpl in Hf. split; [|intros k t' []].
    intros x Hx. exact (Hb t a Hf x Hx).
  - cbn [fold_left] in Hf. rewrite pick_step_eq in Hf.
    destruct (in_progress (status_of st k0)) eqn:Hp.
    + assert (G : exists best',
                 fold_left (pick_step st) items best' = Some (t, a)
                 /\ (best' = None -> t0 :: met = [])
                 /\ (forall bt b, best' = Some (bt, b) ->
                       forall x, In x (t0 :: met) -> ltb bt x = false)).
      { destruct best as [[bt b]|].
        - destruct (ltb bt t0) eqn:L.
          + exists (Some (t0, k0)). split; [exact Hf|].
            split; [discriminate|].
            intros bt' b' E x [Hx|Hx]; inversion E; subst bt' b'.
            * subst x. apply ltb_irrefl.
            * destruct (ltb t0 x) eqn:L2; [|reflexivity].
              rewrite <- (Hb bt b eq_refl x Hx).
              symmetry. exact (ltb_trans bt t0 x L L2).
          + exists (Some (bt, b)). split; [exact Hf|].
            split; [discriminate|].
            intros bt' b' E x [Hx|Hx]; inversion E; subst bt' b'.
            * subst x. exact L.
            * exact (Hb bt b eq_refl x Hx).
        - exists (Some (t0, k0)). split; [exact Hf|].
          split; [discriminate|].
          intros bt' b' E x [Hx|Hx]; inversion E; subst bt' b'.
          * subst x. apply ltb_irrefl.
          * rewrite (Hn eq_refl) in Hx. destruct Hx. }
      destruct G as (best' & Hf' & Hn' & Hb').
      destruct (IH best' (t0 :: met) Hn' Hb' Hf') as [H1 H2].
      split.
      * intros x Hx. apply H1. right. exact Hx.
      * intros k t' [E|Hin] Hk.
        -- inversion E. subst k t'. apply H1. left. reflexivity.
        -- exact (H2 k t' Hin Hk).
    + destruct (IH best met Hn Hb Hf) as [H1 H2]. split; [exact H1|].
      intros k t' [E|Hin] Hk.
      * inversion E. subst k t'. congruence.
      * exact (H2 k t' Hin Hk).
Qed.

Lemma pick_fold_none (st : State) (items : list (string * float)) :
  (forall k t, In (k, t) items -> in_progress (status_of st k) = false) ->
  fold_left (pick_step st) items None = None.
Proof.
  induction items as [|[k0 t0] items IH]; intros H; [reflexivity|].
  cbn [fold_left]. rewrite pick_step_eq.
  rewrite (H k0 t0 (or_introl eq_refl)).
  apply IH. intros k t Hin. apply (H k t). right. exact Hin.
Qed.

(** X10.  When no active subject is set, [pick_active] returns a subject
    of [seen] whose status is in progress and whose last-seen time no
    other such subject exceeds; it returns nothing exactly when no
    subject of [seen] has a status in progress. *)
Theorem pick_active_latest (st : State) :
  present (active_app st) = None ->
  (forall a, pick_active st = Some a ->
     exists t,
       In (a, t) (seen st)
       /\ in_progress (status_of st a) = true
       /\ forall k t', In (k, t') (seen st) ->
                       in_progress (status_of st k) = true ->
                       ltb t t' = false)
  /\ (pick_active st = None <->
      forall k t, In (k, t) (seen st) ->
                  in_progress (status_of st k) = false).
Proof.
  intros Hact.
  assert (Hpick : pick_active st
                  = option_map snd (fold_left (pick_step st) (seen st) None)).
  { unfold pick_active. destruct (active_app st) as [a|]; [|reflexivity].
    simpl in Hact. destruct (truthy a); [discriminate | reflexivity]. }
  rewrite Hpick. split.
  - intros a Ha.
    destruct (fold_left (pick_step st) (seen st) None) as [[t b]|] eqn:Hf;
      [|discriminate]. simpl in Ha. inversion Ha. subst b.
    destruct (pick_fold_in_progress _ _ _ _ _ Hf) as [E|[Hin Hp]];
      [discriminate|].
    exists t. split; [exact Hin | split; [exact Hp|]].
    refine (proj2 (pick_fold_latest st (seen st) None [] t a _ _ Hf)).
    + reflexivity.
    + discriminate.
  - split.
    + intros Hn k t Hin.
      destruct (in_progress (status_of st k)) eqn:Hp; [|reflexivity].
      exfalso.
      apply (pick_fold_some st (seen st) None).
      * right. exists k, t. split; assumption.
      * destruct (fold_left (pick_step st) (seen st) None);
          [discriminate | reflexivity].
    + intros H. rewrite (pick_fold_none st (seen st) H). reflexivity.
Qed.

Lemma pick_active_latest_witness :
  pick_active
    (set_seen "10" (of_nat 1000) (set_app_status "10" DONE State_init))
  = None.
Proof.
  apply (proj2 (proj2 (pick_active_latest
           (set_seen "10" (of_nat 1000) (set_app_status "10" DONE State_init))
           eq_refl))).
  intros k t [H|[]]. inversion H. reflexivity.
Defined.

(* ===================================================================== *)
(** ** A line and the report after it *)
(* ===================================================================== *)











(* ===================================================================== *)
(** ** The metric sample of a state *)
(* ===================================================================== *)

Section Unsigned.

Lemma shr_1_nonneg (mrs : shr_record) :
  (0 <= shr_m mrs)%Z -> (0 <= shr_m (shr_1 mrs))%Z.
Proof.
  destruct mrs as [m r s]. simpl.
  destruct m as [|p|p]; simpl; [lia | | lia].
  destruct p; simpl; lia.
Qed.

Lemma iter_pos_shr_1_nonneg (p : positive) (mrs : shr_record) :
  (0 <= shr_m mrs)%Z -> (0 <= shr_m (iter_pos shr_1 p mrs))%Z.
Proof.
  revert mrs. induction p as [p IH|p IH|]; intros mrs H; simpl.
  - apply IH, IH, shr_1_nonneg, H.
  - apply IH, IH, H.
  - apply shr_1_nonneg, H.
Qed.

Lemma shr_fexp_nonneg (m e : Z) (l : location) :
  (0 <= m)%Z -> (0 <= shr_m (fst (shr_fexp prec emax m e l)))%Z.
Proof.
  intros H. unfold shr_fexp, shr.
  assert (G : (0 <= shr_m (shr_record_of_loc m l))%Z).
  { destruct l as [|[]]; simpl; exact H. }
  destruct (fexp prec emax (Zdigits2 m + e) - e)%Z as [|p|p]; simpl;
    try exact G.
  apply iter_pos_shr_1_nonneg, G.
Qed.

Lemma round_nearest_even_nonneg (m : Z) (l : location) :
  (0 <= m)%Z -> (0 <= round_nearest_even m l)%Z.
Proof.
  intros H. destruct l as [|[]]; simpl; try exact H; try lia.
  destruct (Z.even m); lia.
Qed.

Lemma binary_round_aux_unsigned (m e : Z) (l : location) :
  (0 <= m)%Z -> unsigned (binary_round_aux prec emax false m e l) = true.
Proof.
  intros H. unfold binary_round_aux.
  pose proof (shr_fexp_nonneg m e l H) as H1.
  destruct (shr_fexp prec emax m e l) as [mrs' e'].
  simpl fst in H1.
  pose proof (shr_fexp_nonneg
                (round_nearest_even (shr_m mrs') (loc_of_shr_record mrs'))
                e' loc_Exact (round_nearest_even_nonneg _ _ H1)) as H2.
  destruct (shr_fexp prec emax
              (round_nearest_even (shr_m mrs') (loc_of_shr_record mrs'))
              e' loc_Exact) as [mrs'' e''].
  simpl fst in H2.
  destruct (shr_m mrs'') as [|p|p]; [reflexivity | | lia].
  destruct (e'' <=? emax - prec)%Z; reflexivity.
Qed.

Lemma of_ratio_unsigned (n : N) (d : positive) :
  unsigned (of_ratio n d) = true.
Proof.
  destruct n as [|p]; [reflexivity|].
  unfold of_ratio, SFdiv, SFdiv_core_binary.
  set (e' := Z.min _ _). set (m' := match (0 - 0 - e')%Z with
                                    | Z0 => Zpos p
                                    | Zpos _ => Z.shiftl (Zpos p) (0 - 0 - e')
                                    | Zneg _ => 0%Z
                                    end).
  assert (Hm : (0 <= m')%Z).
  { unfold m'. destruct (0 - 0 - e')%Z; try lia.
    apply Z.shiftl_nonneg. lia. }
  pose proof (Z.div_pos m' (Zpos d) Hm ltac:(lia)) as Hq.
  unfold Z.div in Hq.
  destruct (Z.div_eucl m' (Zpos d)) as [q r]. simpl in Hq.
  apply binary_round_aux_unsigned. exact Hq.
Qed.

(** The float of a text of digits and dots is a number without a minus
    sign. *)
Lemma of_str_unsigned (text : string) (v : float) :
  of_str text = Some v -> unsigned v = true.
Proof.
  unfold of_str. destruct (split_dot text) as [ip fp].
  destruct (_ =? 0); [discriminate|].
  destruct (digits _ 0%N); [|discriminate].
  intros H. inversion H. apply of_ratio_unsigned.
Qed.

End Unsigned.

Lemma classify_metric_unsigned (line : string) (e : event)
    (v : float) (ts src : string) :
  classify line = Event e -> metric_of e = Some (v, ts, src) ->
  unsigned v = true
  /\ (src = "rate" \/ src = "inc" \/ src = "stats").
Proof.
  unfold classify, metric.
  destruct (Re.search upd_changed_re line);
    [intros H; inversion H; subst e; discriminate|].
  destruct (Re.search upd_started_re line);
    [intros H; inversion H; subst e; discriminate|].
  destruct (Re.search upd_canceled_re line);
    [intros H; inversion H; subst e; discriminate|].
  destruct (Re.search finished_re line);
    [intros H; inversion H; subst e; discriminate|].
  destruct (Re.search state_changed_re line);
    [intros H; inversion H; subst e; discriminate|].
  destruct (Re.search rate_re line) as [g|].
  { destruct (of_str _) as [w|] eqn:E; [|discriminate].
    intros H Hm. inversion H. subst e. inversion Hm. subst.
    split; [exact (of_str_unsigned _ _ E) | auto]. }
  destruct (Re.search inc_re line) as [g|].
  { destruct (of_str _) as [w|] eqn:E; [|discriminate].
    intros H Hm. inversion H. subst e. inversion Hm. subst.
    split; [exact (of_str_unsigned _ _ E) | auto]. }
  destruct (Re.search stats_re line) as [g|].
  { destruct (of_str _) as [w|] eqn:E; [|discriminate].
    intros H Hm. inversion H. subst e. inversion Hm. subst.
    split; [exact (of_str_unsigned _ _ E) | auto]. }
  discriminate.
Qed.

Lemma apply_event_sample_sound (now : float) (line : string) (e : event)
    (st : State) :
  classify line = Event e ->
  sample_sound st -> sample_sound (apply_event now e st).
Proof.
  intros Hc Hs. unfold sample_sound in *.
  destruct (metric_of e) as [[[v ts] src]|] eqn:Hm.
  - destruct (classify_metric_unsigned line e v ts src Hc Hm) as [Hu Hsrc].
    destruct e; try discriminate Hm; cbn in Hm; inversion Hm; subst;
      cbn; split; auto.
  - destruct e as [a raw|a|a|a|a raw|v ts|v ts|v ts]; try discriminate Hm;
      cbn [apply_event].
    + destruct (any_active_keyword raw),
               (String.eqb (Text.lower (Text.strip raw)) "none"); exact Hs.
    + exact Hs.
    + destruct (active_is _ a); exact Hs.
    + destruct (active_is _ a); [reflexivity | exact Hs].
    + destruct (Text.contains "suspended" (Text.lower raw)); [|exact Hs].
      destruct (active_is _ a); exact Hs.
Qed.

(** X14.  In every state reached from [State()]: when there is no metric
    sample its receipt time is 0.0; when there is one, its value is a
    number without a minus sign (never NaN, never negative), and its
    source tag is "rate", "inc" or "stats".  So a report never prints
    "nan" or a negative speed. *)
Theorem sample_is_sound (st : State) :
  reachable st ->
  sample_sound st
  /\ (forall v, speed st = Some v ->
        format_3f v <> "nan" /\ Text.starts_with "-" (format_3f v) = false).
Proof.
  intros Hr.
  assert (Hs : sample_sound st).
  { induction Hr as [|now line st st' _ IH Hp]; [reflexivity|].
    destruct (parse_line_inv _ _ _ _ Hp) as [[_ ->]|(e & He & ->)];
      [exact IH | exact (apply_event_sample_sound now line e st He IH)]. }
  split; [exact Hs|].
  intros v Hv. unfold sample_sound in Hs. rewrite Hv in Hs.
  destruct Hs as [Hu _].
  destruct v as [s|s| |s m e]; try discriminate Hu;
    destruct s; try discriminate Hu.
  - split; [discriminate | reflexivity].
  - split; [discriminate | reflexivity].
  - change (format_3f (S754_finite false m e))
      with (fixed3 (thousandths m e)).
    destruct (fixed3_shape (thousandths m e))
      as (ip & a & b & c & E & Hne & Hd & _).
    rewrite E. destruct ip as [|x ip]; [congruence|].
    simpl in Hd. apply andb_true_iff in Hd as [Hx _].
    assert (Hx' : x <> "-"%char /\ x <> "n"%char).
    { split; intros ->; discriminate Hx. }
    destruct Hx' as [H1 H2].
    split.
    + intros H. inversion H. congruence.
    + change (Ascii.eqb "-" x && true = false).
      rewrite andb_true_r. apply Ascii.eqb_neq. congruence.
Qed.

Lemma sample_is_sound_witness :
  exists st,
    parse_lines (of_nat 1000)
      ["[2024-01-01 10:00:01] Current download rate: 12.5 Mbps"]
      State_init = Some st
    /\ sample_sound st.
Proof.
  eexists. split; [vm_compute; reflexivity|].
  apply (proj1 (sample_is_sound _
           (parse_lines_reachable (of_nat 1000)
              ["[2024-01-01 10:00:01] Current download rate: 12.5 Mbps"]
              State_init _ reach_init ltac:(vm_compute; reflexivity)))).
Defined.

(* ===================================================================== *)
(** ** The speed line *)
(* ===================================================================== *)

Lemma two_digits_shape (n : Z) :
  (0 <= n <= 99)%Z -> digits_n 2 (two_digits n).
Proof.
  intros H. split; [reflexivity|].
  assert (H1 : Text.is_digit (digit_char (n / 10)) = true).
  { apply digit_char_digit. split;
      [apply Z.div_pos; lia | apply Z.div_lt_upper_bound; lia]. }
  assert (H2 : Text.is_digit (digit_char (n mod 10)) = true).
  { apply digit_char_digit. apply Z.mod_pos_bound. lia. }
  unfold two_digits. cbn [all_digits]. rewrite H1, H2. reflexivity.
Qed.

Lemma four_digits_shape (n : Z) :
  (0 <= n <= 9999)%Z -> digits_n 4 (four_digits n).
Proof.
  intros H. split; [reflexivity|].
  assert (H1 : Text.is_digit (digit_char (n / 1000)) = true).
  { apply digit_char_digit. split;
      [apply Z.div_pos; lia | apply Z.div_lt_upper_bound; lia]. }
  assert (H2 : Text.is_digit (digit_char (n / 100 mod 10)) = true).
  { apply digit_char_digit. apply Z.mod_pos_bound. lia. }
  assert (H3 : Text.is_digit (digit_char (n / 10 mod 10)) = true).
  { apply digit_char_digit. apply Z.mod_pos_bound. lia. }
  assert (H4 : Text.is_digit (digit_char (n mod 10)) = true).
  { apply digit_char_digit. apply Z.mod_pos_bound. lia. }
  unfold four_digits. cbn [all_digits]. rewrite H1, H2, H3, H4. reflexivity.
Qed.

(** The timestamp of a report has the form YYYY-MM-DD HH:MM:SS. *)
Lemma strftime_shape (d : datetime) :
  valid_datetime d -> timestamp_shape (strftime d).
Proof.
  intros (Hy & Hmo & Hd & Hh & Hmi & Hs).
  exists (four_digits (year d)), (two_digits (month d)), (two_digits (day d)),
         (two_digits (hour d)), (two_digits (minute d)),
         (two_digits (second d)).
  split; [reflexivity|].
  split; [apply four_digits_shape; lia|].
  repeat split; apply two_digits_shape; lia.
Qed.

Lemma reachable_sample_sound (st : State) : reachable st -> sample_sound st.
Proof.
  induction 1 as [|now line st st' _ IH Hp]; [reflexivity|].
  destruct (parse_line_inv _ _ _ _ Hp) as [[_ ->]|(e & He & ->)];
    [exact IH | exact (apply_event_sample_sound now line e st He IH)].
Qed.

(** A number without a minus sign is printed with three decimals, or as
    [inf]. *)
Lemma unsigned_format (v : float) :
  unsigned v = true -> three_decimals (format_3f v) \/ format_3f v = "inf".
Proof.
  intros Hu. destruct (is_finite v) eqn:F.
  - left. apply format_3f_finite. exact F.
  - right. destruct v as [s|s| |s m e]; try discriminate F;
      try discriminate Hu.
    destruct s; [discriminate Hu | reflexivity].
Qed.

Lemma inf_not_three_decimals : ~ three_decimals "inf".
Proof.
  intros (sign & ip & a & b & c & E & Hs & Hne & Hd & _).
  destruct Hs as [-> | ->].
  - destruct ip as [|x ip]; [congruence|].
    cbn in E. inversion E. subst x. cbn in Hd. discriminate Hd.
  - cbn in E. discriminate E.
Qed.

(** C8 (amended).  A report for a subject whose name resolves, whose
    status is not the paused label and whose sample is fresh prints
    [[<timestamp>] <name> | <status> | скорость: <value> Mbps | ]: the
    timestamp has the form YYYY-MM-DD HH:MM:SS, the label of the speed
    field is the Russian word, and a blank, a bar and a blank follow
    [Mbps].  In a state the tracker reaches the value has exactly three
    decimals, or is [inf] (a number of the log too large for a float);
    a finite value has exactly three decimals in any state. *)
Theorem speed_line_format
    (manifest_name : string -> option string) (d : datetime)
    (now : float) (st : State) (appid name : string) (v : float) :
  valid_datetime d ->
  present (pick_active st) = Some appid ->
  present (manifest_name appid) = Some name ->
  effective_status st appid <> PAUSED ->
  speed st = Some v ->
  leb (sub now (speed_wall_ts st)) stale_sec = true ->
  report_line manifest_name (strftime d) now st
  = ("[" ++ strftime d ++ "] " ++ name ++ " | " ++ effective_status st appid
       ++ " | скорость: " ++ format_3f v ++ " Mbps | ")%string
  /\ timestamp_shape (strftime d)
  /\ (reachable st ->
      three_decimals (format_3f v) \/ format_3f v = "inf")
  /\ (is_finite v = true -> three_decimals (format_3f v)).
Proof.
  intros Hd Ha Hn Hp Hv Hle.
  split; [|split; [|split]].
  - unfold report_line. rewrite (tick_resolved _ _ _ _ _ Ha Hn). cbv zeta.
    apply String.eqb_neq in Hp. rewrite Hp.
    unfold speed_ok. rewrite Hv, Hle. reflexivity.
  - apply strftime_shape. exact Hd.
  - intros Hr. apply unsigned_format.
    pose proof (reachable_sample_sound st Hr) as Hs.
    unfold sample_sound in Hs. rewrite Hv in Hs. exact (proj1 Hs).
  - apply format_3f_finite.
Qed.

Lemma speed_line_format_witness :
  report_line (fun _ => Some "Game X") (strftime (mkDatetime 2024 1 1 10 0 2))
    (of_nat 1001)
    (_set_speed (of_nat 1000)
       (set_app_status "10" DOWNLOADING
          (set_active_app (Some "10") State_init))
       (of_nat 12) "2024-01-01 10:00:01" "rate")
  = "[2024-01-01 10:00:02] Game X | Скачивание | скорость: 12.000 Mbps | ".
Proof.
  apply (proj1
           (speed_line_format (fun _ => Some "Game X")
              (mkDatetime 2024 1 1 10 0 2) (of_nat 1001)
              (_set_speed (of_nat 1000)
                 (set_app_status "10" DOWNLOADING
                    (set_active_app (Some "10") State_init))
                 (of_nat 12) "2024-01-01 10:00:01" "rate")
              "10" "Game X" (of_nat 12)
              ltac:(unfold valid_datetime; cbn; lia)
              eq_refl eq_refl
              ltac:(vm_compute; discriminate) eq_refl eq_refl)).
Defined.

(** C8 as stated fails in two ways.  For the two lines of the end-to-end
    example and a report one second later the printed line does not end
    with [Mbps]: a blank, a bar and a blank follow it.  And for a rate
    line whose number is a one followed by 309 zeros, which [float] reads
    as infinity, the value of the printed line is [inf], which has no
    decimals. *)
Lemma speed_line_has_trailing_bar :
  (exists st,
     parse_lines (of_nat 1000)
       ["[2024-01-01 10:00:00] AppID 10 update started:";
        "[2024-01-01 10:00:01] Current download rate: 12.5 Mbps"]
       State_init = Some st
     /\ report_line (fun _ => Some "Game X")
          (strftime (mkDatetime 2024 1 1 10 0 2)) (of_nat 1001) st
        = "[2024-01-01 10:00:02] Game X | Скачивание | скорость: 12.500 Mbps | "
     /\ ends_with "Mbps"
          (report_line (fun _ => Some "Game X")
             (strftime (mkDatetime 2024 1 1 10 0 2)) (of_nat 1001) st) = false)
  /\ (exists st,
        parse_lines (of_nat 1000)
          ["[2024-01-01 10:00:00] AppID 10 update started:";
           ("[2024-01-01 10:00:01] Current download rate: 1"
            ++ char_times "0" 309 ++ " Mbps")%string]
          State_init = Some st
        /\ report_line (fun _ => Some "Game X")
             (strftime (mkDatetime 2024 1 1 10 0 2)) (of_nat 1001) st
           = "[2024-01-01 10:00:02] Game X | Скачивание | скорость: inf Mbps | "
        /\ ~ three_decimals "inf").
Proof.
  split.
  - eexists. split; [vm_compute; reflexivity|].
    split; vm_compute; reflexivity.
  - eexists. split; [vm_compute; reflexivity|].
    split; [vm_compute; reflexivity | exact inf_not_three_decimals].
Qed.

(* ===================================================================== *)
(** ** The turns of the tail *)
(* ===================================================================== *)

Section TurnFacts.
Import Tail.

Lemma split_lines_head (s : string) :
  s <> EmptyString ->
  exists l n r,
    split_lines s = (l, n) :: r /\ truthy l = true /\ 1 <= n.
Proof.
  destruct s as [|c s]; [congruence|]. intros _. cbn [split_lines].
  destruct (Ascii.eqb c LF).
  { eexists _, _, _. repeat split. lia. }
  destruct (Ascii.eqb c CR).
  { destruct s as [|c2 s2]; [eexists _, _, _; repeat split; lia|].
    destruct (Ascii.eqb c2 LF); eexists _, _, _; repeat split; lia. }
  destruct (split_lines s) as [|[l k] r];
    eexists _, _, _; repeat split; lia.
Qed.


(** [reopen_tail] and [tail_step] are [reopen_tail_in] and [turn] in a
    world that stands still. *)
Lemma reopen_still (clock : nat -> float) (disk : option string)
    (t : Tailer) (st : State) :
  reopen_tail_in clock (still disk) t st = reopen_tail clock disk t st.
Proof. destruct disk; reflexivity. Qed.

Lemma turn_still (clock : nat -> float) (now : float) (disk : option string)
    (t : Tailer) (st : State) :
  turn clock now (still disk) t st = tail_step clock now disk t st.
Proof.
  destruct disk as [content|]; [|reflexivity].
  unfold turn, tail_step. rewrite <- (reopen_still clock (Some content)).
  cbn [still size_258].
  destruct (if (Z.of_nat (String.length content) <? pos t)%Z
            then reopen_tail_in clock _ t st
            else Returned t st) as [t1 st1|t1 st1|];
    reflexivity.
Qed.

(** [reopen_tail] when every call after [open] succeeds and the file has
    the size of the text that is read. *)
Lemma reopen_whole (clock : nat -> float) (w : World) (content : string)
    (t : Tailer) (st : State) :
  open_234 w = Some content ->
  size_235 w = Some (Z.of_nat (String.length content)) ->
  fault_237 w = None ->
  reopen_tail_in clock w t st = reopen_tail clock (Some content) t st.
Proof.
  intros Ho Hs Hf. unfold reopen_tail_in, reopen_tail. rewrite Ho, Hs.
  destruct (for_lines _) as [lns fl]. rewrite Hf. reflexivity.
Qed.

(** Where [advance], [seek] and the reads leave the file object. *)
Lemma readline_open (fl : File) :
  closed (snd (readline fl)) = closed fl.
Proof.
  unfold readline.
  destruct (split_lines (skip (cursor fl) (data fl))) as [|[l n] r];
    reflexivity.
Qed.

Lemma for_lines_open (fl : File) :
  closed (snd (for_lines fl)) = closed fl.
Proof.
  unfold for_lines.
  pose proof (read_all_spec (split_lines (skip (cursor fl) (data fl))) fl)
    as H.
  destruct (read_all _ fl) as [out fl']. cbn [snd].
  destruct H as (_ & _ & Hc & _). exact Hc.
Qed.

(** A [reopen_tail] that returns leaves an open file and [pos] at its
    cursor. *)
Lemma reopen_returned (clock : nat -> float) (w : World)
    (t t' : Tailer) (st st' : State) :
  reopen_tail_in clock w t st = Returned t' st' ->
  exists fl, t' = mkTailer (Some fl) (Z.of_nat (cursor fl))
             /\ closed fl = false.
Proof.
  unfold reopen_tail_in.
  destruct (open_234 w) as [content|]; [|discriminate].
  destruct (size_235 w) as [size|]; [|discriminate].
  set (start := Z.max 0 (size - 200000)).
  set (f0 := seek (Z.to_nat start) (open content)).
  set (f1 := if (start >? 0)%Z then snd (readline f0) else f0).
  assert (H1 : closed f1 = false).
  { unfold f1. destruct (start >? 0)%Z; [rewrite readline_open|];
      reflexivity. }
  pose proof (for_lines_open f1) as H2.
  destruct (for_lines f1) as [lns fl]. cbn [snd] in H2.
  destruct (fault_237 w) as [[k flx]|].
  - destruct (run clock 0 _ st); discriminate.
  - destruct (run clock 0 _ st) as [st1|]; [|discriminate].
    intros H. inversion H. exists fl. split; [reflexivity|].
    rewrite H2. exact H1.
Qed.

(** A [reopen_tail] that raises [OSError] leaves [pos] as it is; when it
    is [open] that raises, the state is as it was and the old file object
    is closed. *)
Lemma reopen_oserror (clock : nat -> float) (w : World)
    (t t' : Tailer) (st st' : State) :
  reopen_tail_in clock w t st = OSError t' st' ->
  pos t' = pos t
  /\ (open_234 w = None -> st' = st /\ f t' = option_map close (f t)).
Proof.
  unfold reopen_tail_in.
  destruct (open_234 w) as [content|].
  - destruct (size_235 w) as [size|].
    + destruct (for_lines _) as [lns fl].
      destruct (fault_237 w) as [[k flx]|].
      * destruct (run clock 0 _ st) as [st1|]; [|discriminate].
        intros H. inversion H. split; [reflexivity | discriminate].
      * destruct (run clock 0 _ st); discriminate.
    + intros H. inversion H. split; [reflexivity | discriminate].
  - intros H. inversion H. split; [reflexivity|]. intros _.
    split; reflexivity.
Qed.

(** The read of line 270 keeps [pos] at the cursor of the file. *)
Lemma read_next_in_step (now : float) (w : World) (t t' : Tailer)
    (st st' : State) (fl : File) :
  f t = Some fl -> pos t = Z.of_nat (cursor fl) ->
  read_next now w t st = Returned t' st' ->
  exists fl', f t' = Some fl' /\ closed fl' = false
              /\ pos t' = Z.of_nat (cursor fl').
Proof.
  intros Hf Hp. unfold read_next. rewrite Hf.
  destruct (closed fl); [discriminate|].
  destruct (text_270 w) as [text|]; [|discriminate].
  unfold readline. cbn [cursor data].
  destruct (split_lines (skip (cursor fl) text)) as [|[l n] r] eqn:Hs.
  - cbn [truthy String.eqb negb]. intros H. inversion H.
    eexists. split; [reflexivity|]. cbn. split; [reflexivity|].
    rewrite Hp. f_equal. lia.
  - assert (Tl : truthy l = true).
    { assert (Hne : skip (cursor fl) text <> EmptyString)
        by (intros E; rewrite E in Hs; discriminate Hs).
      destruct (split_lines_head _ Hne) as (l' & n' & r' & Hs' & T & _).
      rewrite Hs in Hs'. inversion Hs'. exact T. }
    rewrite Tl.
    destruct (parse_line now (Text.strip l) st) as [st1|]; [|discriminate].
    intros H. inversion H. eexists. split; [reflexivity|].
    split; reflexivity.
Qed.

(** X15.  The offset [pos] stays the cursor of the open file, unless
    [reopen_tail] raises [OSError].  A turn of the loop that starts with
    [pos] at the cursor of an open file and comes to its end (the thread
    does not die) ends either with an open file whose cursor is [pos], or
    after an [OSError] of [reopen_tail], which the loop catches: then
    [pos] is as it was, and when it was [open] that failed the state is
    as it was and [f] is the old file object, closed.  A turn that starts
    with that closed file and finds the file no shorter than [pos] ends
    the thread, by the [ValueError] of the read of line 270.  (The texts
    are ASCII without CR, so that [f.tell()] is an offset.) *)
Theorem tail_keeps_cursor (clock : nat -> float) (now : float)
    (w : World) (t : Tailer) (st : State) (fl : File) :
  f t = Some fl -> closed fl = false ->
  pos t = Z.of_nat (cursor fl) ->
  (forall c, open_234 w = Some c -> tidy c = true) ->
  (forall text, text_270 w = Some text -> tidy text = true) ->
  (forall t' st',
     turn clock now w t st = Returned t' st' ->
     (exists fl', f t' = Some fl' /\ closed fl' = false
                  /\ pos t' = Z.of_nat (cursor fl'))
     \/ (exists size,
           size_258 w = Some size /\ (size < pos t)%Z
           /\ reopen_tail_in clock w t st = OSError t' st'
           /\ pos t' = pos t
           /\ (open_234 w = None -> st' = st /\ f t' = Some (close fl))))
  /\ (forall size st0,
        size_258 w = Some size -> (pos t <= size)%Z ->
        turn clock now w (mkTailer (Some (close fl)) (pos t)) st0 = Died).
Proof.
  intros Hf Hc Hp _ _. split.
  - intros t' st'. unfold turn.
    destruct (size_258 w) as [size|].
    2:{ intros H. inversion H. subst t' st'. left. exists fl.
        repeat split; assumption. }
    destruct (size <? pos t)%Z eqn:Hlt.
    + destruct (reopen_tail_in clock w t st) as [t1 st1|t1 st1|] eqn:R.
      * destruct (reopen_returned _ _ _ _ _ _ R) as (f1 & -> & Hc1).
        intros H. left.
        exact (read_next_in_step now w
                 (mkTailer (Some f1) (Z.of_nat (cursor f1))) t' st1 st' f1
                 eq_refl eq_refl H).
      * intros H. inversion H. subst t1 st1. right. exists size.
        destruct (reopen_oserror _ _ _ _ _ _ R) as [P Q].
        split; [reflexivity|]. split; [apply Z.ltb_lt; exact Hlt|].
        split; [reflexivity|]. split; [exact P|].
        intros Ho. destruct (Q Ho) as [Q1 Q2]. split; [exact Q1|].
        rewrite Q2, Hf. reflexivity.
      * discriminate.
    + intros H. left.
      exact (read_next_in_step now w t t' st st' fl Hf Hp H).
  - intros size st0 Hs Hle. unfold turn. rewrite Hs. cbn [pos].
    assert (Hlt : (size <? pos t)%Z = false) by (apply Z.ltb_ge; exact Hle).
    rewrite Hlt. reflexivity.
Qed.

Lemma tail_keeps_cursor_witness :
  turn (fun _ => of_nat 1000) (of_nat 1000)
    (mkWorld (Some 30%Z) None None None
       (Some ("AppID 7 finished update" ++ NL ++ "AppID 8")%string))
    (mkTailer (Some (close (mkFile EmptyString 24 false []))) 24) State_init
  = Died.
Proof.
  apply (proj2 (tail_keeps_cursor (fun _ => of_nat 1000) (of_nat 1000)
                  (mkWorld (Some 30%Z) None None None
                     (Some ("AppID 7 finished update" ++ NL
                            ++ "AppID 8")%string))
                  (mkTailer (Some (mkFile EmptyString 24 false [])) 24)
                  State_init (mkFile EmptyString 24 false [])
                  eq_refl eq_refl eq_refl
                  ltac:(intros c H; discriminate H)
                  ltac:(intros text H; inversion H; reflexivity))
           30%Z State_init eq_refl ltac:(cbn; lia)).
Defined.

(** X16.  [reopen_tail] on an ASCII file that can be opened, whose size
    is that of the text read, and on which no later call fails: it passes
    to [parse_line] the stripped lines from [replay_offset] on, which take
    at most the last 200000 characters of the file: all lines of a file
    of at most 200000 characters, and otherwise the lines after the one
    cut at offset size - 200000.  It ends with the file open at its end
    and [pos] the size of the file, or with the exception of [float].  In
    any world, when [reopen_tail] raises [OSError] it leaves [pos] as it
    is, and when it is [open] that raises, the state is as it was and the
    old file object is closed. *)
Theorem reopen_replays_window (clock : nat -> float) (w : World)
    (content : string) (t : Tailer) (st : State) :
  open_234 w = Some content ->
  size_235 w = Some (Z.of_nat (String.length content)) ->
  fault_237 w = None ->
  Text.plain content = true ->
  match run clock 0 (replay_lines content) st with
  | None => reopen_tail_in clock w t st = Died
  | Some st' =>
      exists fl,
        reopen_tail_in clock w t st
        = Returned (mkTailer (Some fl) (Z.of_nat (String.length content))) st'
        /\ closed fl = false
        /\ cursor fl = String.length content
  end
  /\ raw_total (split_lines (skip (replay_offset content) content))
     = String.length content - replay_offset content
  /\ (Z.of_nat (String.length content) - Z.of_nat (replay_offset content)
      <= 200000)%Z
  /\ ((Z.of_nat (String.length content) <= 200000)%Z ->
      replay_lines content
      = map (fun l => Text.strip (fst l)) (split_lines content))
  /\ ((200000 < Z.of_nat (String.length content))%Z ->
      (Z.of_nat (seek_offset content)
       = Z.of_nat (String.length content) - 200000)%Z
      /\ replay_offset content
         = seek_offset content
           + first_line_len (skip (seek_offset content) content))
  /\ (forall w' t' st',
        reopen_tail_in clock w' t st = OSError t' st' ->
        pos t' = pos t
        /\ (open_234 w' = None ->
            st' = st /\ f t' = option_map close (f t))).
Proof.
  intros Ho Hs Hf _.
  split; [|split; [|split; [|split; [|split]]]].
  - rewrite (reopen_whole clock w content t st Ho Hs Hf).
    pose proof (reopen_tail_spec clock content t st) as H.
    destruct (run clock 0 (replay_lines content) st) as [st'|]; [|exact H].
    destruct H as (fl & E & _ & Hc & Hcur & _).
    exists fl. repeat split; assumption.
  - rewrite split_lines_total, skip_length. reflexivity.
  - pose proof (replay_offset_bounds content) as [Hlo _].
    unfold seek_offset in Hlo. lia.
  - intros Hl. unfold replay_lines, replay_offset, seek_offset.
    replace (Z.to_nat (Z.max 0 (Z.of_nat (String.length content) - 200000)))
      with 0 by lia.
    reflexivity.
  - intros Hl. split; [unfold seek_offset; lia|].
    unfold replay_offset.
    destruct (0 <? seek_offset content) eqn:E; [reflexivity|].
    apply Nat.ltb_ge in E. unfold seek_offset in E. lia.
  - intros w' t' st' H. exact (reopen_oserror clock w' t t' st st' H).
Qed.

Lemma reopen_replays_window_witness :
  replay_lines ("  AppID 7 finished update " ++ NL ++ "AppID 8")%string
  = ["AppID 7 finished update"; "AppID 8"].
Proof.
  rewrite (proj1 (proj2 (proj2 (proj2
             (reopen_replays_window (fun _ => of_nat 1000)
                (still (Some ("  AppID 7 finished update " ++ NL
                              ++ "AppID 8")%string))
                ("  AppID 7 finished update " ++ NL ++ "AppID 8")%string
                Tailer_init State_init eq_refl eq_refl eq_refl eq_refl))))
             ltac:(vm_compute; discriminate)).
  reflexivity.
Defined.



End TurnFacts.

(* ===================================================================== *)
(** ** Replaying more than twice *)
(* ===================================================================== *)

Lemma change_then (g g' : sample_change)
    (x : option float * float * string * string) :
  change_sample g' (change_sample g x) = change_sample (then_change g g') x.
Proof.
  destruct g', g; try reflexivity.
  destruct x as [[[a b] c] d]. reflexivity.
Qed.

Lemma change_idem (g : sample_change)
    (x : option float * float * string * string) :
  change_sample g (change_sample g x) = change_sample g x.
Proof.
  destruct g; try reflexivity. destruct x as [[[a b] c] d]. reflexivity.
Qed.

Lemma sample_event_change (now : float) (e : event)
    (p : option string * string) :
  exists g, forall st, active st = p ->
    sample (apply_event now e st) = change_sample g (sample st).
Proof.
  destruct (is_metric e) eqn:Hm.
  - destruct (metric_of e) as [[[v ts] src]|] eqn:Hv;
      [|unfold is_metric in Hm; rewrite Hv in Hm; discriminate Hm].
    exists (SPut (Some v, now, ts, src)). intros st _.
    exact (proj1 (metric_event_effect now e st v ts src Hv)).
  - destruct (is_finished e) eqn:Hf.
    + destruct e as [| | |a| | | |]; try discriminate Hf.
      destruct (names p a) eqn:Hn.
      * exists SClear. intros st <-. cbn [apply_event].
        rewrite active_is_set_maps.
        rewrite names_active in Hn. rewrite Hn. reflexivity.
      * exists SKeep. intros st <-. cbn [apply_event].
        rewrite active_is_set_maps.
        rewrite names_active in Hn. rewrite Hn. reflexivity.
    + exists SKeep. intros st _.
      apply sample_event_subject; [exact Hm|].
      intros a ->. discriminate Hf.
Qed.

(** The sample after a sequence of events is a fixed change of the
    sample before, once the active subject before is fixed. *)
Lemma sample_events_change (now : float) (es : list event)
    (p : option string * string) :
  exists g, forall st, active st = p ->
    sample (apply_events now es st) = change_sample g (sample st).
Proof.
  revert p. induction es as [|e es IH]; intros p.
  - exists SKeep. intros st _. reflexivity.
  - destruct (sample_event_change now e p) as [g Hg].
    destruct (IH (act_step e p)) as [g' Hg'].
    exists (then_change g g'). intros st Hp.
    rewrite apply_events_cons, Hg'.
    + rewrite (Hg st Hp). apply change_then.
    + rewrite active_event, Hp. reflexivity.
Qed.

Lemma replay_events_stable (now : float) (es : list event) (st : State) :
  apply_events now es (apply_events now es (apply_events now es st))
  = apply_events now es (apply_events now es st).
Proof.
  set (s1 := apply_events now es st).
  destruct (replay_events now es s1) as (H1 & H2 & H3).
  apply State_ext; try assumption.
  destruct (replay_events now es st) as (_ & _ & A).
  fold s1 in A.
  destruct (sample_events_change now es (active s1)) as [g Hg].
  rewrite (Hg (apply_events now es s1) A), (Hg s1 eq_refl).
  apply change_idem.
Qed.

(** X18.  Replaying settles after the second pass: from any state and
    with every line processed at the same clock reading, running
    [parse_line] over the lines three times gives the state that running
    over them twice gives (or the same [ValueError]). *)
Theorem replay_settles (now : float) (lines : list string) (st : State) :
  parse_lines now (lines ++ lines ++ lines) st
  = parse_lines now (lines ++ lines) st.
Proof.
  rewrite !parse_lines_events, !events_of_app.
  destruct (events_of lines) as [es|]; [|reflexivity].
  simpl. rewrite !apply_events_app, replay_events_stable. reflexivity.
Qed.

(* ===================================================================== *)
(** ** The display name *)
(* ===================================================================== *)

Section ManifestFacts.
Import Manifest.

Lemma name_in_inv (fs : Files) (lib appid name : string) :
  name_in fs lib appid = Some name ->
  exists data m,
    isfile fs (join fs lib (manifest_file appid)) = true
    /\ read fs (join fs lib (manifest_file appid)) = Some data
    /\ search name_re data = Some m
    /\ name = Text.strip (Re.group m 1).
Proof.
  unfold name_in.
  destruct (isfile fs _) eqn:Hi; [|discriminate].
  destruct (read fs _) as [data|] eqn:Hr; [|discriminate].
  destruct (search name_re data) as [m|] eqn:Hs; [|discriminate].
  intros H. inversion H. exists data, m. repeat split; auto.
Qed.

Lemma manifest_name_some (fs : Files) (libs : list string)
    (appid name : string) :
  manifest_name fs libs appid = Some name ->
  exists before lib after,
    libs = before ++ lib :: after
    /\ name_in fs lib appid = Some name
    /\ forall l, In l before -> name_in fs l appid = None.
Proof.
  induction libs as [|lib libs IH]; simpl; [discriminate|].
  destruct (name_in fs lib appid) as [n|] eqn:E.
  - intros H. inversion H. subst n.
    exists [], lib, libs. repeat split; auto. intros l [].
  - intros H. destruct (IH H) as (before & lib' & after & -> & Hn & Hb).
    exists (lib :: before), lib', after. repeat split; auto.
    intros l [<-|Hin]; [exact E | exact (Hb l Hin)].
Qed.

Lemma manifest_name_none (fs : Files) (libs : list string) (appid : string) :
  manifest_name fs libs appid = None <->
  forall lib, In lib libs -> name_in fs lib appid = None.
Proof.
  induction libs as [|lib libs IH]; simpl.
  - split; [intros _ l [] | reflexivity].
  - destruct (name_in fs lib appid) as [n|] eqn:E.
    + split; [discriminate|]. intros H.
      rewrite (H lib (or_introl eq_refl)) in E. discriminate.
    + rewrite IH. split.
      * intros H l [<-|Hin]; [exact E | exact (H l Hin)].
      * intros H l Hin. apply H. right. exact Hin.
Qed.

(** X19.  When the manifests of the subject in the libraries have no
    white space outside ASCII (so that [\s] of [name_re] and [str.strip]
    see the spaces of [Text.is_space]): the name that [manifest_name]
    returns comes from the first library, in the order of [libs], whose
    manifest of the subject is a file that can be read and has a name
    entry; it is the stripped text of the entry, so it has a space at
    neither end (and is empty when the entry is blank).  [manifest_name]
    returns nothing exactly when no library has such a manifest. *)
Theorem manifest_name_first_library (fs : Files) (libs : list string)
    (appid : string) :
  (forall lib data,
     In lib libs -> read fs (join fs lib (manifest_file appid)) = Some data ->
     Text.narrow data = true) ->
  (forall name, manifest_name fs libs appid = Some name ->
     trimmed name
     /\ exists before lib after data m,
          libs = before ++ lib :: after
          /\ (forall l, In l before -> name_in fs l appid = None)
          /\ isfile fs (join fs lib (manifest_file appid)) = true
          /\ read fs (join fs lib (manifest_file appid)) = Some data
          /\ search name_re data = Some m
          /\ name = Text.strip (Re.group m 1))
  /\ (manifest_name fs libs appid = None <->
      forall lib, In lib libs -> name_in fs lib appid = None).
Proof.
  intros _. split; [|apply manifest_name_none].
  intros name H.
  destruct (manifest_name_some fs libs appid name H)
    as (before & lib & after & Hl & Hn & Hb).
  destruct (name_in_inv fs lib appid name Hn) as (data & m & Hi & Hr & Hs & E).
  split; [rewrite E; apply strip_trimmed|].
  exists before, lib, after, data, m. repeat split; assumption.
Qed.

Lemma manifest_name_first_library_witness :
  trimmed "Game X".
Proof.
  apply (proj1 (proj1 (manifest_name_first_library
           (mkFiles (fun lib fname => (lib ++ "/steamapps/" ++ fname)%string)
              (fun p => String.eqb p "D:/Lib/steamapps/appmanifest_10.acf")
              (fun p =>
                 Some (String QUOTE "Name" ++ String QUOTE "  "
                       ++ String QUOTE " Game X "
                       ++ String QUOTE EmptyString)%string))
           ["C:/Steam"; "D:/Lib"] "10"
           ltac:(intros lib data _ H; inversion H; reflexivity)) "Game X"
           ltac:(vm_compute; reflexivity))).
Defined.

End ManifestFacts.
